(** * mcp-server-tiny-print: the rendering and framing pipeline of [printer.py]

    A shallow embedding of [src/mcp_tiny_print/printer.py]: the text clean-up of
    [markdown_to_bitmap], the line splitting and the font-size search of
    [text_to_bitmap], and the ESC/POS "GS v 0" command built by
    [print_bitmap], over a model of the Pillow images the code manipulates.

    Python integers are [Z].  A Python [str] is a list of code points, a
    [bytes] value a list of integers in 0..255.  Exceptions are the left
    summand of [result]. *)

From Stdlib Require Import String ZArith List Bool Lia.
Import ListNotations.
Local Open Scope Z_scope.

(** ** Exceptions *)

Inductive exn : Type :=
| ValueError (msg : string)
| AssertionError (msg : string)
| UnicodeEncodeError
| BleakError.                    (* raised by bleak, here: writing while not connected *)

Definition result (A : Type) : Type := (exn + A)%type.

Definition ret {A} (a : A) : result A := inr a.
Definition raise {A} (e : exn) : result A := inl e.
Definition bind {A B} (m : result A) (k : A -> result B) : result B :=
  match m with
  | inl e => inl e
  | inr a => k a
  end.

Notation "x <- m ;; k" := (bind m (fun x => k))
  (at level 61, m at next level, right associativity).

(** ** Python strings *)

Module PyStr.

Definition char := Z.
Definition str := list char.

(** The code points the source names. *)
Definition LF : char := 10.          (* "\n" *)
Definition SPACE : char := 32.
Definition HASH : char := 35.        (* "#" *)
Definition STAR : char := 42.        (* "*" *)
Definition BACKSLASH : char := 92.
Definition LOWER_N : char := 110.    (* "n" *)
Definition BULLET : char := 8226.    (* U+2022 *)
Definition WHITE_SQUARE : char := 9633.  (* U+25A1 *)
Definition BALLOT_BOX : char := 9744.    (* U+2610 *)

Fixpoint startswith (s prefix : str) {struct prefix} : bool :=
  match prefix, s with
  | [], _ => true
  | _ :: _, [] => false
  | p :: prefix', c :: s' => (c =? p) && startswith s' prefix'
  end.

(** [s.replace(old, new)] for a non-empty [old]: the occurrences of [old]
    are found from left to right and do not overlap.  [skip] counts the
    characters of a matched occurrence that are still to be passed. *)
Fixpoint replace_from (old new : str) (skip : nat) (s : str) : str :=
  match s with
  | [] => []
  | c :: s' =>
      match skip with
      | S k => replace_from old new k s'
      | O =>
          if startswith s old
          then new ++ replace_from old new (pred (length old)) s'
          else c :: replace_from old new O s'
      end
  end.

(** [str.replace]; with an empty [old] Python puts [new] before every
    character and at the end. *)
Definition replace (s old new : str) : str :=
  match old with
  | [] => new ++ flat_map (fun c => c :: new) s
  | _ :: _ => replace_from old new O s
  end.

(** [s.split(sep)] for a one-character separator. *)
Fixpoint split (sep : char) (s : str) : list str :=
  match s with
  | [] => [[]]
  | c :: s' =>
      if c =? sep then [] :: split sep s'
      else match split sep s' with
           | [] => [[c]]
           | l :: ls => (c :: l) :: ls
           end
  end.

(** [str.isspace] on one character: the code points Python treats as
    white space. *)
Definition isspace (c : char) : bool :=
  ((9 <=? c) && (c <=? 13)) || ((28 <=? c) && (c <=? 32))
  || (c =? 133) || (c =? 160) || (c =? 5760)
  || ((8192 <=? c) && (c <=? 8202))
  || (c =? 8232) || (c =? 8233) || (c =? 8239) || (c =? 8287)
  || (c =? 12288).

Fixpoint lstrip (s : str) : str :=
  match s with
  | [] => []
  | c :: s' => if isspace c then lstrip s' else s
  end.

Definition rstrip (s : str) : str := rev (lstrip (rev s)).

(** [s.strip()] with no argument. *)
Definition strip (s : str) : str := rstrip (lstrip s).

(** The truth value of a string: non-empty. *)
Definition truthy (s : str) : bool :=
  match s with
  | [] => false
  | _ :: _ => true
  end.

(** [max(lines, key=len)]: the first element of greatest length; raises
    [ValueError] on an empty list. *)
Definition max_by_len (lines : list str) : result str :=
  match lines with
  | [] => raise (ValueError "max() arg is an empty sequence")
  | x :: xs =>
      ret (fold_left
             (fun best y =>
                if (Z.of_nat (length best) <? Z.of_nat (length y)) then y else best)
             xs x)
  end.

End PyStr.
Import PyStr.

(** ** Pillow images *)

Module PIL.

(** [range(n)] over the integers. *)
Definition zrange (n : Z) : list Z := map Z.of_nat (seq 0 (Z.to_nat n)).

(** An image: its [size] and the pixel at each coordinate, [x] counted from
    the left and [y] from the top.  Pixels outside the size play no part.
    The pixel type is [bool] for mode "1" ([true] is the sample 255, white;
    [false] is 0, black) and a triple for mode "RGB". *)
Record Image (P : Type) : Type := mkImage {
  width : Z;
  height : Z;
  px : Z -> Z -> P
}.
Arguments mkImage {P}.
Arguments width {P}.
Arguments height {P}.
Arguments px {P}.

Definition Bitmap := Image bool.
Definition rgb := (Z * Z * Z)%type.
Definition box := (Z * Z * Z * Z)%type.

Definition size {P} (img : Image P) : Z * Z := (width img, height img).

(** Every image Pillow hands out has a size that is not negative. *)
Definition wf {P} (img : Image P) : Prop := 0 <= width img /\ 0 <= height img.

Definition inside {P} (img : Image P) (x y : Z) : bool :=
  (0 <=? x) && (x <? width img) && (0 <=? y) && (y <? height img).

Definition white : bool := true.
Definition white_rgb : rgb := (255, 255, 255).

(** [Image.new(mode, (w, h), color)]; a negative size is refused. *)
Definition new {P} (w h : Z) (color : P) : result (Image P) :=
  if (0 <=? w) && (0 <=? h)
  then ret (mkImage w h (fun _ _ => color))
  else raise (ValueError "Width and height must be >= 0").

(** [dst.paste(src, (ox, oy))]: the source covers the destination from the
    offset on; the destination keeps its size. *)
Definition paste {P} (dst src : Image P) (ox oy : Z) : Image P :=
  mkImage (width dst) (height dst)
    (fun x y => if inside src (x - ox) (y - oy)
                then px src (x - ox) (y - oy)
                else px dst x y).

(** [img.crop((left, upper, right, lower))]: what lies outside the source
    is filled with zero samples.  The boxes the code passes have
    [left <= right] and [upper <= lower]. *)
Definition crop (img : Bitmap) (b : box) : Bitmap :=
  let '(x0, y0, x1, y1) := b in
  mkImage (x1 - x0) (y1 - y0)
    (fun x y => if inside img (x + x0) (y + y0)
                then px img (x + x0) (y + y0)
                else false).

(** The sample stored for a mode "1" pixel. *)
Definition sample (p : bool) : Z := if p then 255 else 0.

(** [img.point(f)] on a mode "1" image: each sample goes through the
    table of [f]; a sample that is not zero is a set pixel. *)
Definition point (f : Z -> Z) (img : Bitmap) : Bitmap :=
  mkImage (width img) (height img)
    (fun x y => negb (f (sample (px img x y)) =? 0)).

Definition col_nonzero (img : Bitmap) (x : Z) : bool :=
  existsb (fun y => px img x y) (zrange (height img)).
Definition row_nonzero (img : Bitmap) (y : Z) : bool :=
  existsb (fun x => px img x y) (zrange (width img)).

(** [img.getbbox()]: the bounding box of the samples that are not zero,
    [None] when every sample is zero. *)
Definition getbbox (img : Bitmap) : option box :=
  match find (col_nonzero img) (zrange (width img)),
        find (row_nonzero img) (zrange (height img)),
        find (col_nonzero img) (rev (zrange (width img))),
        find (row_nonzero img) (rev (zrange (height img))) with
  | Some x0, Some y0, Some x1, Some y1 =>
      Some (x0, y0, x1 + 1, y1 + 1)
  | _, _, _, _ => None
  end.

(** The value of a list of bits, the first one the most significant. *)
Fixpoint bits_value (bits : list bool) : Z :=
  match bits with
  | [] => 0
  | b :: bs => Z.b2z b * 2 ^ Z.of_nat (length bs) + bits_value bs
  end.

(** Bytes per row of a mode "1" image: rows are padded to whole bytes. *)
Definition stride (img : Bitmap) : Z := (width img + 7) / 8.

(** Byte [k] of row [y]: pixels [8k .. 8k+7], the leftmost in bit 7; the
    padding bits past the width are zero. *)
Definition packed_byte (img : Bitmap) (y k : Z) : Z :=
  bits_value
    (map (fun i => (8 * k + i <? width img) && px img (8 * k + i) y) (zrange 8)).

Definition packed_row (img : Bitmap) (y : Z) : list Z :=
  map (packed_byte img y) (zrange (stride img)).

(** [img.tobytes()] on a mode "1" image: the rows from top to bottom. *)
Definition tobytes (img : Bitmap) : list Z :=
  flat_map (packed_row img) (zrange (height img)).

End PIL.
Import PIL.

(** ** The text renderer of Pillow

    Font files and glyph rasterisation are outside the repository: the code
    is modelled over any renderer with this interface.  A drawing call keeps
    the size of its canvas, so it is given as the pixels it leaves. *)

Class Renderer : Type := {
  font : Type;
  (** [ImageFont.truetype(path, size)]; [None] when it raises, which the
      code catches with a bare [except]. *)
  truetype : string -> Z -> option font;
  (** [ImageFont.load_default()]. *)
  load_default : font;
  (** [draw.textbbox((0, 0), text, font=font)]. *)
  textbbox : font -> str -> box;
  (** [draw.text((x, y), text, font=font, fill="black")] on a mode "1"
      canvas. *)
  text_px : font -> Z -> Z -> str -> Bitmap -> Z -> Z -> bool;
  (** [draw.multiline_text((x, y), text, font=font, fill="black")] on an
      "RGB" canvas. *)
  multiline_text_px : font -> Z -> Z -> str -> Image rgb -> Z -> Z -> rgb;
  (** [img.convert("1")]: luminance, then dithering to two levels. *)
  convert_1_px : Image rgb -> Z -> Z -> bool
}.

Section Drawing.
Context {R : Renderer}.

Definition draw_text (f : font) (x y : Z) (text : str) (img : Bitmap) : Bitmap :=
  mkImage (width img) (height img) (text_px f x y text img).

Definition multiline_text (f : font) (x y : Z) (text : str) (img : Image rgb)
  : Image rgb :=
  mkImage (width img) (height img) (multiline_text_px f x y text img).

Definition convert_1 (img : Image rgb) : Bitmap :=
  mkImage (width img) (height img) (convert_1_px img).

End Drawing.

(** ** [printer.py] *)

Definition WRITE_CHAR : string := "0000ff02-0000-1000-8000-00805f9b34fb".
Definition NOTIFY_CHAR : string := "0000ff01-0000-1000-8000-00805f9b34fb".

Definition PRINT_WIDTH : Z := 384.

Definition HELVETICA : string := "/System/Library/Fonts/Helvetica.ttc".
Definition ARIAL : string := "/System/Library/Fonts/Arial.ttf".

(** A [BleakClient], as far as the printer code sees it: the address it was
    made for, whether its [connect()] has completed, and the writes made to
    its characteristics, oldest first.  A client is made unconnected;
    a connection, once made, is taken to last. *)
Record BleakClient : Type := mkClient {
  address : string;
  is_connected : bool;
  gatt_writes : list (string * list Z)
}.

(** The client after a write that completed. *)
Definition with_write (c : BleakClient) (uuid : string) (data : list Z)
  : BleakClient :=
  mkClient (address c) (is_connected c) (gatt_writes c ++ [(uuid, data)]).

(** [client.write_gatt_char(uuid, data, response=False)]: bleak raises on a
    client that is not connected, and nothing is written. *)
Definition write_gatt_char (c : BleakClient) (uuid : string) (data : list Z)
  : result BleakClient :=
  if is_connected c then ret (with_write c uuid data) else raise BleakError.

Record TinyPrinter : Type := mkPrinter {
  client : option BleakClient
}.

(** What [send_data] accepts: a [str] or a [bytes]. *)
Inductive data : Type :=
| Str (s : str)
| Bytes (b : list Z).

(** [s.encode("ascii")]. *)
Definition encode_ascii (s : str) : result (list Z) :=
  if forallb (fun c => c <? 128) s then ret s else raise UnicodeEncodeError.

(** [TinyPrinter.send_data]; the pause after the write is not modelled. *)
Definition send_data (self : TinyPrinter) (d : data) : result TinyPrinter :=
  b <- match d with
       | Str s => encode_ascii s
       | Bytes b => ret b
       end ;;
  match client self with
  | None => raise (AssertionError "Client not connected")
  | Some c =>
      c <- write_gatt_char c WRITE_CHAR b ;;
      ret (mkPrinter (Some c))
  end.

(** The two-character escape ["\\n"]: a backslash, then the letter n. *)
Definition ESCAPE : str := [BACKSLASH; LOWER_N].

(** The clean-up at the head of [markdown_to_bitmap]: the chain of
    [replace] calls bound to [text]. *)
Definition clean_up_text (markdown_text : str) : str :=
  replace
    (replace
       (replace
          (replace
             (replace markdown_text ESCAPE [LF])
             [WHITE_SQUARE] [BULLET; SPACE])
          [BALLOT_BOX] [BULLET; SPACE])
       [HASH] [])
    [STAR] [].

(** The first statement of [text_to_bitmap]: split, strip, drop the empty
    lines. *)
Definition text_lines (text : str) : list str :=
  filter truthy (map strip (split LF text)).

(** [lambda x: 255 - x], the inversion both renderers end with. *)
Definition invert (x : Z) : Z := 255 - x.

Section Rendering.
Context {R : Renderer}.

(** The font of [markdown_to_bitmap]: Helvetica at 24, else the built-in
    font. *)
Definition markdown_font : font :=
  match truetype HELVETICA 24 with
  | Some f => f
  | None => load_default
  end.

(** [TinyPrinter.markdown_to_bitmap]. *)
Definition markdown_to_bitmap (markdown_text : str) : result Bitmap :=
  let text := clean_up_text markdown_text in
  let font := markdown_font in
  img <- new PRINT_WIDTH 2000 white_rgb ;;
  let img := multiline_text font 10 10 text img in
  let img := convert_1 img in
  let bbox := getbbox img in
  let img :=
    match bbox with
    | Some b => crop img b
    | None => img
    end in
  let img := point invert img in
  ret img.

(** The font chain of [text_to_bitmap]: Helvetica, else Arial, else the
    built-in font. *)
Definition load_font (sz : Z) : font :=
  match truetype HELVETICA sz with
  | Some f => f
  | None =>
      match truetype ARIAL sz with
      | Some f => f
      | None => load_default
      end
  end.

Definition bbox_width (f : font) (line : str) : Z :=
  let '(x0, _, x1, _) := textbbox f line in x1 - x0.

Definition bbox_height (f : font) (line : str) : Z :=
  let '(_, y0, _, y1) := textbbox f line in y1 - y0.

(** One test of the search: does [longest_line] fit at [test_font_size]? *)
Definition fits (longest_line : str) (test_font_size : Z) : bool :=
  let test_font := load_font test_font_size in
  let text_width := bbox_width test_font longest_line in
  let target_width := PRINT_WIDTH - 20 in
  text_width <=? target_width.

(** The [while min_font <= max_font] loop; it returns [best_font_size].
    [fuel] bounds the number of rounds: each round shrinks the interval,
    so [max_font - min_font + 1] rounds are never used up
    (see [font_search_fuel]). *)
Fixpoint font_search (fuel : nat) (longest_line : str)
         (min_font max_font best_font_size : Z) : Z :=
  match fuel with
  | O => best_font_size
  | S fuel' =>
      if min_font <=? max_font then
        let test_font_size := (min_font + max_font) / 2 in
        if fits longest_line test_font_size
        then font_search fuel' longest_line (test_font_size + 1) max_font
                         test_font_size
        else font_search fuel' longest_line min_font (test_font_size - 1)
                         best_font_size
      else best_font_size
  end.

(** The search as [text_to_bitmap] starts it: [min_font = 8],
    [max_font = 200], [best_font_size = 16]. *)
Definition search_font_size (longest_line : str) : Z :=
  font_search (Z.to_nat (200 - 8 + 1)) longest_line 8 200 16.

(** The font size [text_to_bitmap] settles on. *)
Definition chosen_font_size (text : str) : result Z :=
  longest_line <- max_by_len (text_lines text) ;;
  ret (search_font_size longest_line).

(** The drawing loop: each line centred on its own width, [y_pos]
    advancing by the line height plus 5. *)
Fixpoint draw_lines (f : font) (lines : list str) (line_heights : list Z)
         (y_pos : Z) (img : Bitmap) : Bitmap :=
  match lines, line_heights with
  | line :: lines', h :: heights' =>
      let line_width := bbox_width f line in
      let x := (PRINT_WIDTH - line_width) / 2 in
      draw_lines f lines' heights' (y_pos + (h + 5)) (draw_text f x y_pos line img)
  | _, _ => img
  end.

(** [TinyPrinter.text_to_bitmap]. *)
Definition text_to_bitmap (text : str) : result Bitmap :=
  let lines := text_lines text in
  longest_line <- max_by_len lines ;;
  let best_font_size := search_font_size longest_line in
  let font := load_font best_font_size in
  let line_heights := map (bbox_height font) lines in
  let total_height := fold_left (fun acc h => acc + (h + 5)) line_heights 10 in
  img <- new PRINT_WIDTH (total_height + 10) white ;;
  let img := draw_lines font lines line_heights 10 img in
  let img := point invert img in
  ret img.

End Rendering.

(** The width normalisation of [print_bitmap]: the image that is packed
    and the value [width] holds afterwards. *)
Definition fit_print_width (img : Bitmap) : result (Bitmap * Z) :=
  let '(width, height) := size img in
  if negb (width =? PRINT_WIDTH) then
    new_img <- new PRINT_WIDTH height white ;;
    let new_img :=
      if width <? PRINT_WIDTH then
        let offset := (PRINT_WIDTH - width) / 2 in
        paste new_img img offset 0
      else
        crop img (0, 0, PRINT_WIDTH, height) in
    ret (new_img, PRINT_WIDTH)
  else ret (img, width).

(** The [command] byte array of [print_bitmap]. *)
Definition print_bitmap_command (img : Bitmap) : result (list Z) :=
  let '(_, height) := size img in
  fitted <- fit_print_width img ;;
  let '(img, width) := fitted in
  let pixels := tobytes img in
  let width_bytes := width / 8 in
  ret ([27; 64]
       ++ [29; 118; 48; 0]
       ++ [Z.land width_bytes 255]
       ++ [Z.land (Z.shiftr width_bytes 8) 255]
       ++ [Z.land height 255]
       ++ [Z.land (Z.shiftr height 8) 255]
       ++ pixels
       ++ [10; 10; 10]).

(** [TinyPrinter.print_bitmap]. *)
Definition print_bitmap (self : TinyPrinter) (img : Bitmap) : result TinyPrinter :=
  command <- print_bitmap_command img ;;
  send_data self (Bytes command).

(** [TinyPrinter.print_markdown]. *)
Definition print_markdown {R : Renderer} (self : TinyPrinter) (markdown_text : str)
  : result TinyPrinter :=
  img <- markdown_to_bitmap markdown_text ;;
  print_bitmap self img.

(** ** Assumptions on the renderer

    The precondition of the binary search: the measured width of a line
    does not shrink when the font size grows, over the sizes searched. *)
Definition width_monotone {R : Renderer} (line : str) : Prop :=
  forall s s', 8 <= s' -> s' <= s -> s <= 200 ->
    bbox_width (load_font s') line <= bbox_width (load_font s) line.

(** The canvas of [markdown_to_bitmap] once the text is drawn and the image
    converted to mode "1". *)
Definition drawn_canvas {R : Renderer} (f : font) (text : str) : Bitmap :=
  convert_1 (multiline_text f 10 10 text
               (mkImage PRINT_WIDTH 2000 (fun _ _ => white_rgb))).

(** Text drawn at (10, 10) leaves what is left of and above that origin
    white. *)
Definition margin_stays_white {R : Renderer} : Prop :=
  forall (f : font) (text : str) (x y : Z),
    0 <= x < PRINT_WIDTH -> 0 <= y < 2000 -> x < 10 \/ y < 10 ->
    px (drawn_canvas f text) x y = white.

(** ** The documented payload layout

    The reading side of the wire format, as the protocol documents it: row
    [y] starts at byte [y * 48], pixel [x] of a row is bit [7 - x mod 8] of
    byte [x / 8].  It is the inverse the packing is compared with. *)
Definition unpack (payload : list Z) (x y : Z) : bool :=
  Z.testbit (nth (Z.to_nat (y * (PRINT_WIDTH / 8) + x / 8)) payload 0)
            (7 - x mod 8).

(** The 16-bit value two header bytes stand for, low byte first. *)
Definition le16 (lo hi : Z) : Z := lo + 256 * hi.

(** The ten bytes before the payload of a 384-wide print: reset, raster
    opcode and mode, 48 bytes per row, the low and high byte of the height. *)
Definition header (height : Z) : list Z :=
  [27; 64; 29; 118; 48; 0; 48; 0; height mod 256; height / 256 mod 256].

(** ** A small renderer and sample inputs

    A renderer whose glyphs are solid squares: a font is its pixel size,
    every character is [size] wide and high.  Helvetica is absent, Arial
    loads at any size, the built-in font has size 10. *)
Definition in_block (x y w h u v : Z) : bool :=
  (x <=? u) && (u <? x + w) && (y <=? v) && (v <? y + h).

Definition luminance (c : rgb) : Z :=
  let '(r, g, b) := c in (r * 299 + g * 587 + b * 114) / 1000.

#[local] Instance block_renderer : Renderer := {|
  font := Z;
  truetype := fun path sz => if String.eqb path ARIAL then Some sz else None;
  load_default := 10;
  textbbox := fun f s => (0, 0, f * Z.of_nat (length s), f);
  text_px := fun f x y s img u v =>
    if in_block x y (f * Z.of_nat (length s)) f u v then false else px img u v;
  multiline_text_px := fun f x y s img u v =>
    if in_block x y (f * Z.of_nat (length s)) f u v then (0, 0, 0) else px img u v;
  convert_1_px := fun img u v => 128 <=? luminance (px img u v)
|}.

(** Samples: a connected printer, a 384 x 8 image whose two top rows are
    black, an image taller than 16 bits can count, a narrow and a wide one. *)
Definition connected : TinyPrinter :=
  mkPrinter (Some (mkClient "PPG" true [])).

Definition two_black_rows : Bitmap := mkImage 384 8 (fun _ y => 2 <=? y).
Definition tall_image : Bitmap := mkImage 384 70000 (fun _ _ => white).
Definition narrow_black : Bitmap := mkImage 8 1 (fun _ _ => false).
Definition wide_image : Bitmap := mkImage 400 2 (fun x _ => x <? 384).
Definition image_384x300 : Bitmap := mkImage 384 300 (fun x y => Z.even (x + y)).

(** Fifty letters "m": too wide for the block renderer at every size. *)
Definition fifty_m : str := repeat 109 50.
(** "hello" *)
Definition hello : str := [104; 101; 108; 108; 111].
(** "#a*" *)
Definition heading : str := [HASH; 97; STAR].

(** ** Discovery and connection: [find_and_connect]

    What the Bluetooth stack answers is outside the repository: a scan is
    the list of devices it returns, in order, and [connects] tells for an
    address whether [BleakClient(address).connect()] completes or raises. *)

Module BLEDevice.
Record t : Type := mk {
  name : option string;
  address : string
}.
End BLEDevice.

(** [sub in s] on strings. *)
Fixpoint contains (sub s : string) : bool :=
  String.prefix sub s
  || match s with
     | EmptyString => false
     | String _ s' => contains sub s'
     end.

(** The test of the scan loop: [device.name and "PPG" in device.name]. *)
Definition is_ppg (device : BLEDevice.t) : bool :=
  match BLEDevice.name device with
  | None => false
  | Some n => negb (String.eqb n "") && contains "PPG" n
  end.

(** [TinyPrinter.find_and_connect]: its return value and the printer
    afterwards.  The client is assigned, unconnected, before [connect] is
    awaited, so it stays assigned and unconnected when [connect] raises;
    the one-second pause is not modelled. *)
Definition find_and_connect (self : TinyPrinter) (devices : list BLEDevice.t)
           (connects : string -> bool) : bool * TinyPrinter :=
  match find is_ppg devices with
  | None => (false, self)
  | Some printer =>
      let self := mkPrinter (Some (mkClient (BLEDevice.address printer) false [])) in
      if connects (BLEDevice.address printer)
      then (true, mkPrinter (Some (mkClient (BLEDevice.address printer) true [])))
      else (false, self)
  end.

(** ** [server.py]

    The module-wide [printer_instance], the progress reports and the errors
    sent to the request context.  Logging is not modelled. *)

Inductive server_exn : Type :=
| Raised (e : exn)               (* an exception of the printer code *)
| RuntimeError (msg : string).

(** What the tool returns: [Printed] is the string "Successfully printed
    markdown text to thermal printer", [Failed e] the string "Failed to
    print markdown: " followed by [str(e)]. *)
Inductive reply : Type :=
| Printed
| Failed (e : server_exn).

Record Server : Type := mkServer {
  printer_instance : option TinyPrinter;
  (** [ctx.report_progress(progress, total, message)], oldest first *)
  progress : list (Z * Z * string);
  (** [ctx.error(error_msg)], oldest first, each as the exception its
      message was made from *)
  ctx_errors : list server_exn
}.

Definition report_progress (s : Server) (p total : Z) (message : string) : Server :=
  mkServer (printer_instance s) (progress s ++ [(p, total, message)]) (ctx_errors s).

Definition set_printer (s : Server) (p : TinyPrinter) : Server :=
  mkServer (Some p) (progress s) (ctx_errors s).

(** [init_printer]: the instance is stored before the connection is
    tried, and stays stored when the connection fails. *)
Definition init_printer (devices : list BLEDevice.t) (connects : string -> bool)
           (s : Server) : (server_exn + unit) * Server :=
  match printer_instance s with
  | None =>
      let '(ok, p) := find_and_connect (mkPrinter None) devices connects in
      let s := set_printer s p in
      if negb ok
      then (inl (RuntimeError "Failed to connect to PPG printer"), s)
      else (inr tt, s)
  | Some _ => (inr tt, s)
  end.

(** Entering [managed_printer]: what the [with] statement binds. *)
Definition managed_printer (devices : list BLEDevice.t) (connects : string -> bool)
           (s : Server) : (server_exn + option TinyPrinter) * Server :=
  match printer_instance s with
  | None =>
      match init_printer devices connects s with
      | (inl e, s) => (inl e, s)
      | (inr _, s) => (inr (printer_instance s), s)
      end
  | Some _ => (inr (printer_instance s), s)
  end.

(** The [except Exception] branch of the tool. *)
Definition failed (e : server_exn) (s : Server) : reply * Server :=
  (Failed e, mkServer (printer_instance s) (progress s) (ctx_errors s ++ [e])).

(** The tool [print_markdown] of [server.py].  [devices] and [connects]
    are what a scan and a connection would meet during this call. *)
Definition print_markdown_tool {R : Renderer} (markdown_text : str)
           (devices : list BLEDevice.t) (connects : string -> bool)
           (s : Server) : reply * Server :=
  let s := report_progress s 0 2 "Initializing printer..." in
  match managed_printer devices connects s with
  | (inl e, s) => failed e s
  | (inr None, s) => failed (Raised (AssertionError "Printer not initialized")) s
  | (inr (Some printer), s) =>
      let s := report_progress s 0 1 "Printer initialized. Sending data..." in
      match print_markdown printer markdown_text with
      | inl e => failed (Raised e) s
      | inr printer =>
          let s := set_printer s printer in
          let s := report_progress s 0 2 "Printer initialized" in
          (Printed, s)
      end
  end.

(** The server as the module is loaded. *)
Definition fresh_server : Server := mkServer None [] [].

(** ** The canvas [print_bitmap] packs, pixel by pixel

    What the width normalisation amounts to for a pixel inside the 384
    columns: the input as it is, the input moved right by the centring
    offset over white, or the input's left 384 columns. *)
Definition canvas_pixel (img : Bitmap) (x y : Z) : bool :=
  if width img =? PRINT_WIDTH then px img x y
  else if width img <? PRINT_WIDTH then
    let offset := (PRINT_WIDTH - width img) / 2 in
    if (offset <=? x) && (x <? offset + width img)
    then px img (x - offset) y
    else white
  else px img x y.

(** ** Further assumptions and samples *)

(** A renderer that measures no line with a negative height, at the sizes
    the search can end on. *)
Definition heights_nonnegative {R : Renderer} : Prop :=
  forall (sz : Z) (line : str),
    8 <= sz <= 200 -> 0 <= bbox_height (load_font sz) line.

(** A system with no font file: every [truetype] call raises. *)
Definition no_font_files {R : Renderer} : Prop :=
  forall path sz, truetype path sz = None.

(** The block renderer without its Arial file. *)
#[local] Instance builtin_only : Renderer := {|
  font := Z;
  truetype := fun _ _ => None;
  load_default := 10;
  textbbox := fun f s => (0, 0, f * Z.of_nat (length s), f);
  text_px := fun f x y s img u v =>
    if in_block x y (f * Z.of_nat (length s)) f u v then false else px img u v;
  multiline_text_px := fun f x y s img u v =>
    if in_block x y (f * Z.of_nat (length s)) f u v then (0, 0, 0) else px img u v;
  convert_1_px := fun img u v => 128 <=? luminance (px img u v)
|}.

Definition a_phone : BLEDevice.t := BLEDevice.mk (Some "Phone"%string) "AA:01".
Definition unnamed_device : BLEDevice.t := BLEDevice.mk None "AA:02".
Definition a_printer : BLEDevice.t := BLEDevice.mk (Some "PPG_A2"%string) "AA:03".
Definition other_printer : BLEDevice.t := BLEDevice.mk (Some "my PPG"%string) "AA:04".

(** * Proofs *)

(** ** Ranges *)

Lemma zrange_length (n : Z) : length (zrange n) = Z.to_nat n.
Proof. unfold zrange. now rewrite length_map, length_seq. Qed.

Lemma zrange_In (n x : Z) : In x (zrange n) <-> 0 <= x < n.
Proof.
  unfold zrange. rewrite in_map_iff. split.
  - intros [k [<- Hk]]. apply in_seq in Hk. lia.
  - intros Hx. exists (Z.to_nat x). split; [lia|]. apply in_seq. lia.
Qed.

Lemma zrange_nth (n : Z) (i : nat) (d : Z) :
  (i < Z.to_nat n)%nat -> nth i (zrange n) d = Z.of_nat i.
Proof.
  intros Hi. unfold zrange.
  rewrite (nth_indep _ d (Z.of_nat 0)) by now rewrite length_map, length_seq.
  rewrite map_nth, seq_nth by assumption. reflexivity.
Qed.

Lemma zrange_succ (n : Z) :
  0 <= n -> zrange (n + 1) = zrange n ++ [n].
Proof.
  intros Hn. unfold zrange.
  replace (Z.to_nat (n + 1)) with (S (Z.to_nat n)) by lia.
  rewrite seq_S, map_app. simpl. now rewrite Z2Nat.id.
Qed.

(** ** Bit packing *)

Lemma bits_value_bound (bits : list bool) :
  0 <= bits_value bits < 2 ^ Z.of_nat (length bits).
Proof.
  induction bits as [|b bs IH]; simpl bits_value; simpl length.
  - simpl. lia.
  - rewrite Nat2Z.inj_succ, Z.pow_succ_r by lia.
    destruct b; simpl Z.b2z; lia.
Qed.

(** Bit [length bits - 1 - i] of the packed value is the [i]-th bit of the
    list: the first bit is the most significant. *)
Lemma bits_value_testbit (bits : list bool) (i : nat) :
  (i < length bits)%nat ->
  Z.testbit (bits_value bits) (Z.of_nat (length bits) - 1 - Z.of_nat i)
  = nth i bits false.
Proof.
  revert i. induction bits as [|b bs IH]; intros i Hi; simpl in Hi; [lia|].
  pose proof (bits_value_bound bs) as Hb.
  simpl bits_value. simpl length. rewrite Nat2Z.inj_succ.
  destruct i as [|i].
  - replace (Z.succ (Z.of_nat (length bs)) - 1 - Z.of_nat 0)
      with (Z.of_nat (length bs)) by lia.
    simpl nth.
    rewrite Z.testbit_odd, Z.shiftr_div_pow2 by lia.
    rewrite Z.div_add_l by lia.
    rewrite Z.div_small by lia. rewrite Z.add_0_r. now destruct b.
  - replace (Z.succ (Z.of_nat (length bs)) - 1 - Z.of_nat (S i))
      with (Z.of_nat (length bs) - 1 - Z.of_nat i) by lia.
    simpl nth. rewrite <- IH by lia.
    rewrite <- (Z.mod_pow2_bits_low _ (Z.of_nat (length bs))) by lia.
    rewrite Z.add_comm, Z.mod_add by lia.
    rewrite Z.mod_small by lia. reflexivity.
Qed.

Lemma packed_byte_range (img : Bitmap) (y k : Z) :
  0 <= packed_byte img y k < 256.
Proof.
  unfold packed_byte.
  match goal with |- 0 <= bits_value ?l < _ =>
    pose proof (bits_value_bound l) as H;
    replace (length l) with 8%nat in H by now rewrite length_map, zrange_length
  end.
  exact H.
Qed.

(** Pixel [8k + i] of row [y] is bit [7 - i] of byte [k]. *)
Lemma packed_byte_testbit (img : Bitmap) (y k i : Z) :
  0 <= i < 8 ->
  Z.testbit (packed_byte img y k) (7 - i)
  = (8 * k + i <? width img) && px img (8 * k + i) y.
Proof.
  intros Hi. unfold packed_byte.
  set (f := fun i0 => (8 * k + i0 <? width img) && px img (8 * k + i0) y).
  assert (Hlen : length (map f (zrange 8)) = 8%nat)
    by now rewrite length_map, zrange_length.
  pose proof (bits_value_testbit (map f (zrange 8)) (Z.to_nat i)) as H.
  rewrite Hlen in H.
  replace (Z.of_nat 8 - 1 - Z.of_nat (Z.to_nat i)) with (7 - i) in H by lia.
  rewrite H by lia.
  rewrite (nth_indep _ false (f 0)) by (rewrite Hlen; lia).
  rewrite map_nth, zrange_nth by lia.
  now rewrite Z2Nat.id by lia.
Qed.

Lemma packed_row_length (img : Bitmap) (y : Z) :
  length (packed_row img y) = Z.to_nat (stride img).
Proof. unfold packed_row. now rewrite length_map, zrange_length. Qed.

Lemma flat_map_uniform_length {A B} (f : A -> list B) (l : list A) (n : nat) :
  (forall a, In a l -> length (f a) = n) ->
  length (flat_map f l) = (length l * n)%nat.
Proof.
  induction l as [|a l IH]; intros H; simpl; [reflexivity|].
  rewrite length_app, H, IH; auto using in_eq, in_cons.
Qed.

Lemma flat_map_uniform_nth {A B} (f : A -> list B) (l : list A) (n i j : nat)
      (da : A) (d : B) :
  (forall a, In a l -> length (f a) = n) ->
  (i < length l)%nat -> (j < n)%nat ->
  nth (i * n + j) (flat_map f l) d = nth j (f (nth i l da)) d.
Proof.
  revert i. induction l as [|a l IH]; intros i H Hi Hj; simpl in Hi; [lia|].
  simpl flat_map. destruct i as [|i].
  - simpl. rewrite app_nth1; [reflexivity|]. rewrite H; auto using in_eq.
  - rewrite app_nth2 by (rewrite H by apply in_eq; simpl; lia).
    rewrite H by apply in_eq.
    replace (S i * n + j - n)%nat with (i * n + j)%nat by (simpl; lia).
    simpl nth. apply IH; auto using in_cons. lia.
Qed.

Lemma tobytes_length (img : Bitmap) :
  length (tobytes img) = (Z.to_nat (height img) * Z.to_nat (stride img))%nat.
Proof.
  unfold tobytes.
  rewrite (flat_map_uniform_length _ _ (Z.to_nat (stride img))).
  - now rewrite zrange_length.
  - intros; apply packed_row_length.
Qed.

(** Byte [k] of row [y] sits at index [y * stride + k]. *)
Lemma tobytes_nth (img : Bitmap) (y k : Z) :
  0 <= y < height img -> 0 <= k < stride img ->
  nth (Z.to_nat (y * stride img + k)) (tobytes img) 0 = packed_byte img y k.
Proof.
  intros Hy Hk. unfold tobytes.
  replace (Z.to_nat (y * stride img + k))
    with (Z.to_nat y * Z.to_nat (stride img) + Z.to_nat k)%nat by nia.
  rewrite (flat_map_uniform_nth _ _ _ _ _ 0 0).
  - rewrite zrange_nth by lia. rewrite (Z2Nat.id y) by lia. unfold packed_row.
    rewrite (nth_indep _ 0 (packed_byte img y 0))
      by (rewrite length_map, zrange_length; lia).
    rewrite map_nth, zrange_nth by lia.
    now rewrite !Z2Nat.id by lia.
  - intros; apply packed_row_length.
  - rewrite zrange_length; lia.
  - lia.
Qed.

Lemma tobytes_range (img : Bitmap) (b : Z) :
  In b (tobytes img) -> 0 <= b < 256.
Proof.
  unfold tobytes, packed_row. rewrite in_flat_map.
  intros [y [_ Hb]]. apply in_map_iff in Hb as [k [<- _]].
  apply packed_byte_range.
Qed.

(** The packing reads only the pixels inside the image. *)
Lemma tobytes_ext (a b : Bitmap) :
  size a = size b ->
  (forall x y, 0 <= x < width a -> 0 <= y < height a -> px a x y = px b x y) ->
  tobytes a = tobytes b.
Proof.
  unfold size. intros Hs Hpx. injection Hs as Hw Hh.
  unfold tobytes, packed_row, stride. rewrite <- Hw, <- Hh.
  rewrite !flat_map_concat_map. f_equal.
  apply map_ext_in. intros y Hy. apply zrange_In in Hy.
  apply map_ext_in. intros k Hk. apply zrange_In in Hk.
  unfold packed_byte. f_equal. rewrite <- Hw.
  apply map_ext_in. intros i Hi. apply zrange_In in Hi.
  destruct (8 * k + i <? width a) eqn:E; [|reflexivity].
  apply Z.ltb_lt in E. rewrite !andb_true_l. apply Hpx; lia.
Qed.

(** ** Header fields *)

Lemma land_255 (n : Z) : Z.land n 255 = n mod 256.
Proof. change 255 with (Z.ones 8). now rewrite Z.land_ones by lia. Qed.

Lemma shiftr_8 (n : Z) : Z.shiftr n 8 = n / 256.
Proof. now rewrite Z.shiftr_div_pow2 by lia. Qed.

(** Two header bytes hold the low 16 bits of the field. *)
Lemma le16_low_high (n : Z) :
  le16 (Z.land n 255) (Z.land (Z.shiftr n 8) 255) = n mod 65536.
Proof.
  unfold le16. rewrite !land_255, shiftr_8.
  pose proof (Z.div_mod n 256 ltac:(lia)).
  pose proof (Z.mod_pos_bound n 256 ltac:(lia)).
  pose proof (Z.div_mod (n / 256) 256 ltac:(lia)).
  pose proof (Z.mod_pos_bound (n / 256) 256 ltac:(lia)).
  apply (Z.mod_unique_pos _ _ (n / 256 / 256)); lia.
Qed.

Lemma le16_exact (n : Z) :
  0 <= n < 65536 -> le16 (Z.land n 255) (Z.land (Z.shiftr n 8) 255) = n.
Proof. intros H. rewrite le16_low_high. now apply Z.mod_small. Qed.

(** ** [print_bitmap]: the normalised canvas and the command *)

Lemma new_ok {P} (w h : Z) (c : P) :
  0 <= w -> 0 <= h -> new w h c = ret (mkImage w h (fun _ _ => c)).
Proof.
  intros Hw Hh. unfold new.
  destruct (0 <=? w) eqn:E1; [|lia]. destruct (0 <=? h) eqn:E2; [|lia].
  reflexivity.
Qed.

(** The canvas [print_bitmap] packs, spelled out case by case. *)
Lemma fit_print_width_cases (img : Bitmap) :
  wf img ->
  fit_print_width img =
  ret (if width img =? PRINT_WIDTH then img
       else if width img <? PRINT_WIDTH
            then paste (mkImage PRINT_WIDTH (height img) (fun _ _ => white)) img
                       ((PRINT_WIDTH - width img) / 2) 0
            else crop img (0, 0, PRINT_WIDTH, height img),
       PRINT_WIDTH).
Proof.
  intros [Hw Hh]. unfold fit_print_width, size.
  destruct (width img =? PRINT_WIDTH) eqn:E; simpl negb; cbv iota.
  - apply Z.eqb_eq in E. now rewrite E.
  - rewrite new_ok by (unfold PRINT_WIDTH; lia). reflexivity.
Qed.

Lemma fit_print_width_size (img canvas : Bitmap) (w : Z) :
  wf img ->
  fit_print_width img = ret (canvas, w) ->
  w = PRINT_WIDTH /\ width canvas = PRINT_WIDTH /\ height canvas = height img.
Proof.
  intros Hwf H. rewrite fit_print_width_cases in H by assumption.
  injection H as <- <-.
  destruct (width img =? PRINT_WIDTH) eqn:E.
  - apply Z.eqb_eq in E. auto.
  - destruct (width img <? PRINT_WIDTH); simpl; repeat split; lia.
Qed.

(** The command is the ten header bytes, the packed canvas, three feeds. *)
Lemma print_bitmap_command_fitted (img canvas : Bitmap) (w : Z) :
  wf img ->
  fit_print_width img = ret (canvas, w) ->
  print_bitmap_command img
  = ret (header (height img) ++ tobytes canvas ++ [10; 10; 10]).
Proof.
  intros Hwf H.
  destruct (fit_print_width_size _ _ _ Hwf H) as [-> _].
  unfold print_bitmap_command, size. rewrite H. unfold bind, header.
  rewrite !land_255, !shiftr_8. reflexivity.
Qed.

Lemma tobytes_length_384 (canvas : Bitmap) :
  width canvas = PRINT_WIDTH -> 0 <= height canvas ->
  Z.of_nat (length (tobytes canvas)) = 48 * height canvas.
Proof.
  intros Hw Hh. rewrite tobytes_length. unfold stride. rewrite Hw.
  change ((PRINT_WIDTH + 7) / 8) with 48. lia.
Qed.

(** Reading the payload of a 384-wide canvas back with the documented bit
    order gives the pixel. *)
Lemma unpack_tobytes (canvas : Bitmap) (rest : list Z) (x y : Z) :
  width canvas = PRINT_WIDTH ->
  0 <= x < PRINT_WIDTH -> 0 <= y < height canvas ->
  unpack (tobytes canvas ++ rest) x y = px canvas x y.
Proof.
  intros Hw Hx Hy. unfold unpack, PRINT_WIDTH in *.
  assert (Hs : stride canvas = 48) by (unfold stride; now rewrite Hw).
  pose proof (Z.div_mod x 8 ltac:(lia)) as Hdm.
  pose proof (Z.mod_pos_bound x 8 ltac:(lia)) as Hm.
  assert (Hk : 0 <= x / 8 < 48)
    by (split; [apply Z.div_pos; lia | apply Z.div_lt_upper_bound; lia]).
  change (384 / 8) with 48.
  rewrite app_nth1
    by (rewrite tobytes_length, Hs; nia).
  rewrite <- Hs at 1. rewrite tobytes_nth by (rewrite ?Hs; lia).
  rewrite packed_byte_testbit by lia.
  rewrite <- Hdm, Hw.
  destruct (x <? 384) eqn:E; [reflexivity | lia].
Qed.

Lemma send_bytes_connected (c : BleakClient) (b : list Z) :
  is_connected c = true ->
  send_data (mkPrinter (Some c)) (Bytes b)
  = ret (mkPrinter (Some (with_write c WRITE_CHAR b))).
Proof.
  intros H. unfold send_data, write_gatt_char. cbn [bind ret client].
  now rewrite H.
Qed.

Lemma send_bytes_unconnected (c : BleakClient) (b : list Z) :
  is_connected c = false ->
  send_data (mkPrinter (Some c)) (Bytes b) = raise BleakError.
Proof.
  intros H. unfold send_data, write_gatt_char. cbn [bind ret client].
  now rewrite H.
Qed.

Lemma print_bitmap_command_ok (img : Bitmap) :
  wf img ->
  exists canvas,
    fit_print_width img = ret (canvas, PRINT_WIDTH)
    /\ width canvas = PRINT_WIDTH
    /\ height canvas = height img
    /\ print_bitmap_command img
       = ret (header (height img) ++ tobytes canvas ++ [10; 10; 10]).
Proof.
  intros Hwf. pose proof (fit_print_width_cases img Hwf) as H.
  match type of H with _ = ret (?c, _) => exists c end.
  destruct (fit_print_width_size _ _ _ Hwf H) as (_ & Hw & Hh).
  repeat split; try assumption.
  now apply print_bitmap_command_fitted with (w := PRINT_WIDTH).
Qed.

Lemma command_length (h : Z) (payload : list Z) :
  Z.of_nat (length (header h ++ payload ++ [10; 10; 10]))
  = 13 + Z.of_nat (length payload).
Proof. unfold header. rewrite !length_app. simpl length. lia. Qed.

(** ** The claims about [print_bitmap] *)

(** C1, as the code has it.  [print_bitmap] makes no check of the height:
    for every image it builds the whole command and, on a connected printer,
    writes it (on a client that is not connected the write itself raises,
    whatever the height); the two bytes yL yH hold the height modulo 65536,
    so a height above 65535 is cut down to its low 16 bits while all its
    rows are sent. *)
Theorem print_bitmap_sends_any_height (img : Bitmap) (c : BleakClient) :
  wf img ->
  exists command,
    print_bitmap_command img = ret command
    /\ (is_connected c = true ->
        print_bitmap (mkPrinter (Some c)) img
        = ret (mkPrinter (Some (with_write c WRITE_CHAR command))))
    /\ (is_connected c = false ->
        print_bitmap (mkPrinter (Some c)) img = raise BleakError)
    /\ le16 (nth 8 command 0) (nth 9 command 0) = height img mod 65536
    /\ Z.of_nat (length command) = 13 + 48 * height img.
Proof.
  intros Hwf.
  destruct (print_bitmap_command_ok img Hwf) as (canvas & _ & Hw & Hh & Hc).
  eexists. split; [exact Hc|]. split; [|split; [|split]].
  - intros Hcon. unfold print_bitmap. rewrite Hc. cbn [bind ret].
    now apply send_bytes_connected.
  - intros Hcon. unfold print_bitmap. rewrite Hc. cbn [bind ret].
    now apply send_bytes_unconnected.
  - change (nth 8 (header (height img) ++ tobytes canvas ++ [10; 10; 10]) 0)
      with (height img mod 256).
    change (nth 9 (header (height img) ++ tobytes canvas ++ [10; 10; 10]) 0)
      with (height img / 256 mod 256).
    rewrite <- land_255, <- shiftr_8, <- (land_255 (Z.shiftr _ _)).
    apply le16_low_high.
  - rewrite command_length, tobytes_length_384; destruct Hwf; lia.
Qed.

Lemma print_bitmap_sends_any_height_witness :
  wf two_black_rows /\
  exists command,
    print_bitmap_command two_black_rows = ret command
    /\ print_bitmap connected two_black_rows
       = ret (mkPrinter (Some (mkClient "PPG" true [(WRITE_CHAR, command)])))
    /\ le16 (nth 8 command 0) (nth 9 command 0) = height two_black_rows mod 65536
    /\ Z.of_nat (length command) = 13 + 48 * height two_black_rows.
Proof.
  assert (H : wf two_black_rows) by (unfold wf; simpl; lia).
  split; [exact H|].
  destruct (print_bitmap_sends_any_height two_black_rows (mkClient "PPG" true []) H)
    as (command & Hc & Hsent & _ & Hle & Hlen).
  exists command. split; [exact Hc|]. split; [exact (Hsent eq_refl)|].
  split; [exact Hle | exact Hlen].
Defined.

(** C1 fails on the code: an image 70000 rows high is not refused.  The
    command is built and written to the printer, and its height field reads
    4464 = 70000 - 65536. *)
Lemma print_bitmap_tall_image_not_refused :
  65535 < height tall_image /\
  exists command,
    print_bitmap_command tall_image = ret command
    /\ print_bitmap connected tall_image
       = ret (mkPrinter (Some (mkClient "PPG" true [(WRITE_CHAR, command)])))
    /\ nth 8 command 0 = 112 /\ nth 9 command 0 = 17
    /\ le16 (nth 8 command 0) (nth 9 command 0) = 4464
    /\ Z.of_nat (length command) = 13 + 48 * 70000.
Proof.
  split; [simpl; lia|].
  assert (Hwf : wf tall_image) by (unfold wf; simpl; lia).
  destruct (print_bitmap_command_ok tall_image Hwf) as (canvas & _ & Hw & Hh & Hc).
  eexists. split; [exact Hc|].
  split; [unfold print_bitmap; rewrite Hc; reflexivity|].
  repeat split.
  rewrite command_length, tobytes_length_384; [simpl in Hh; lia|assumption|].
  rewrite Hh. simpl. lia.
Qed.

(** C4.  For an image 384 wide the command is, byte for byte: 1B 40, then
    1D 76 30 00, then xL xH = 30 00 (48 bytes per row), then yL yH, the low
    and the high byte of the height, then the packed rows, then 0A 0A 0A.
    yL yH read back as the height whenever it fits 16 bits; height 300 gives
    2C 01. *)
Theorem print_bitmap_command_wire_format (img : Bitmap) :
  width img = PRINT_WIDTH -> 0 <= height img ->
  print_bitmap_command img
  = ret ([27; 64] ++ [29; 118; 48; 0] ++ [48; 0]
         ++ [height img mod 256; height img / 256 mod 256]
         ++ tobytes img ++ [10; 10; 10])
  /\ (height img < 65536 ->
      le16 (height img mod 256) (height img / 256 mod 256) = height img)
  /\ (height img = 300 ->
      height img mod 256 = 44 /\ height img / 256 mod 256 = 1).
Proof.
  intros Hw Hh. split; [|split].
  - assert (Hwf : wf img) by (unfold wf; rewrite Hw; unfold PRINT_WIDTH; lia).
    pose proof (fit_print_width_cases img Hwf) as H.
    rewrite Hw, Z.eqb_refl in H.
    now rewrite (print_bitmap_command_fitted _ _ _ Hwf H).
  - intros Hlt. rewrite <- land_255, <- shiftr_8, <- (land_255 (Z.shiftr _ _)).
    apply le16_exact. lia.
  - intros ->. split; reflexivity.
Qed.

Lemma print_bitmap_command_wire_format_witness :
  width image_384x300 = PRINT_WIDTH /\ 0 <= height image_384x300 /\
  print_bitmap_command image_384x300
  = ret ([27; 64] ++ [29; 118; 48; 0] ++ [48; 0]
         ++ [height image_384x300 mod 256; height image_384x300 / 256 mod 256]
         ++ tobytes image_384x300 ++ [10; 10; 10]).
Proof.
  assert (H0 : 0 <= height image_384x300) by (simpl; lia).
  split; [reflexivity|]. split; [exact H0|].
  exact (proj1 (print_bitmap_command_wire_format image_384x300 eq_refl H0)).
Defined.

(** C9.  For an image 384 wide and [h] high the command has 13 + 48 h
    bytes. *)
Theorem print_bitmap_command_length (img : Bitmap) :
  width img = PRINT_WIDTH -> 0 <= height img ->
  exists command,
    print_bitmap_command img = ret command
    /\ Z.of_nat (length command) = 13 + 48 * height img.
Proof.
  intros Hw Hh.
  assert (Hwf : wf img) by (unfold wf; rewrite Hw; unfold PRINT_WIDTH; lia).
  pose proof (fit_print_width_cases img Hwf) as H.
  rewrite Hw, Z.eqb_refl in H.
  eexists. split; [exact (print_bitmap_command_fitted _ _ _ Hwf H)|].
  now rewrite command_length, tobytes_length_384.
Qed.

Lemma print_bitmap_command_length_witness :
  width two_black_rows = PRINT_WIDTH /\ 0 <= height two_black_rows /\
  exists command,
    print_bitmap_command two_black_rows = ret command
    /\ Z.of_nat (length command) = 13 + 48 * height two_black_rows.
Proof.
  assert (H0 : 0 <= height two_black_rows) by (simpl; lia).
  split; [reflexivity|]. split; [exact H0|].
  exact (print_bitmap_command_length two_black_rows eq_refl H0).
Defined.

(** C7.  When the width is not 384 the canvas that is packed is exactly 384
    wide and as high as the image, and the payload of the command is that
    canvas, row by row.  A narrower image lies on white from column
    [(PRINT_WIDTH - width) // 2] on; a wider image keeps its columns 0..383,
    and nothing at or beyond column 384 reaches the command: two wide images
    that agree on columns 0..383 give the same command. *)
Theorem fit_print_width_centres_or_crops (img : Bitmap) :
  wf img -> width img <> PRINT_WIDTH ->
  exists canvas,
    fit_print_width img = ret (canvas, PRINT_WIDTH)
    /\ print_bitmap_command img
       = ret (header (height img) ++ tobytes canvas ++ [10; 10; 10])
    /\ width canvas = PRINT_WIDTH
    /\ height canvas = height img
    /\ Z.of_nat (length (tobytes canvas)) = 48 * height img
    /\ (forall x y, 0 <= x < PRINT_WIDTH -> 0 <= y < height img ->
          unpack (tobytes canvas ++ [10; 10; 10]) x y = px canvas x y)
    /\ (width img < PRINT_WIDTH ->
        forall x y, 0 <= x < PRINT_WIDTH -> 0 <= y < height img ->
          let offset := (PRINT_WIDTH - width img) / 2 in
          px canvas x y
          = if (offset <=? x) && (x <? offset + width img)
            then px img (x - offset) y
            else white)
    /\ (PRINT_WIDTH < width img ->
        (forall x y, 0 <= x < PRINT_WIDTH -> 0 <= y < height img ->
           px canvas x y = px img x y)
        /\ (forall img', size img' = size img ->
              (forall x y, 0 <= x < PRINT_WIDTH -> 0 <= y < height img ->
                 px img' x y = px img x y) ->
              print_bitmap_command img' = print_bitmap_command img)).
Proof.
  intros Hwf Hne.
  destruct (print_bitmap_command_ok img Hwf) as (canvas & Hfit & Hw & Hh & Hc).
  exists canvas. repeat split; try assumption.
  - (* the payload has one row of 48 bytes for each row of the image *)
    rewrite tobytes_length_384; destruct Hwf; lia.
  - (* the payload is the canvas *)
    intros x y Hx Hy. apply unpack_tobytes; [assumption | assumption | lia].
  - (* narrower *)
    intros Hlt x y Hx Hy offset.
    pose proof (fit_print_width_cases img Hwf) as H. rewrite Hfit in H.
    destruct (width img =? PRINT_WIDTH) eqn:E; [apply Z.eqb_eq in E; lia|].
    destruct (width img <? PRINT_WIDTH) eqn:E'; [|lia].
    replace canvas with
      (paste (mkImage PRINT_WIDTH (height img) (fun _ _ => white)) img
             ((PRINT_WIDTH - width img) / 2) 0)
      by (unfold ret in H; cbv iota in H; congruence).
    unfold paste, inside; cbn [px width height]. fold offset.
    replace (y - 0) with y by lia.
    destruct (offset <=? x) eqn:E1, (x <? offset + width img) eqn:E2;
      destruct (0 <=? x - offset) eqn:E3, (x - offset <? width img) eqn:E4;
      try lia;
      destruct (0 <=? y) eqn:E5, (y <? height img) eqn:E6; try lia;
      reflexivity.
  - (* wider: the columns kept *)
    intros x y Hx Hy.
    pose proof (fit_print_width_cases img Hwf) as H'. rewrite Hfit in H'.
    destruct (width img =? PRINT_WIDTH) eqn:E; [apply Z.eqb_eq in E; lia|].
    destruct (width img <? PRINT_WIDTH) eqn:E'; [lia|].
    replace canvas with (crop img (0, 0, PRINT_WIDTH, height img))
      by (unfold ret in H'; cbv iota in H'; congruence).
    unfold crop, inside; cbn [px width height]. rewrite !Z.add_0_r.
    destruct (0 <=? x) eqn:E1, (x <? width img) eqn:E2,
             (0 <=? y) eqn:E5, (y <? height img) eqn:E6; try lia.
    reflexivity.
  - (* wider: the columns dropped *)
    intros img' Hs Hpx. unfold size in Hs. injection Hs as Hw' Hh'.
    assert (Hwf' : wf img') by (unfold wf in *; lia).
    pose proof (fit_print_width_cases img Hwf) as H1.
    pose proof (fit_print_width_cases img' Hwf') as H2.
    rewrite (print_bitmap_command_fitted _ _ _ Hwf H1).
    rewrite (print_bitmap_command_fitted _ _ _ Hwf' H2).
    rewrite Hw', Hh'.
    destruct (width img =? PRINT_WIDTH) eqn:E; [apply Z.eqb_eq in E; lia|].
    destruct (width img <? PRINT_WIDTH) eqn:E'; [lia|].
    do 3 f_equal. apply tobytes_ext; [reflexivity|].
    unfold crop; cbn [px width height]. intros x y Hx Hy.
    unfold inside. rewrite !Z.add_0_r, Hw', Hh'.
    destruct (0 <=? x) eqn:E1, (x <? width img) eqn:E2,
             (0 <=? y) eqn:E5, (y <? height img) eqn:E6; try lia.
    simpl. apply Hpx; lia.
Qed.

Lemma fit_print_width_centres_or_crops_witness :
  wf narrow_black /\ width narrow_black <> PRINT_WIDTH /\
  exists canvas,
    fit_print_width narrow_black = ret (canvas, PRINT_WIDTH)
    /\ width canvas = PRINT_WIDTH
    /\ height canvas = 1
    /\ (forall x y, 0 <= x < PRINT_WIDTH -> 0 <= y < 1 ->
          px canvas x y
          = if (188 <=? x) && (x <? 196) then false else white).
Proof.
  assert (Hwf : wf narrow_black) by (unfold wf; simpl; lia).
  assert (Hne : width narrow_black <> PRINT_WIDTH) by discriminate.
  split; [exact Hwf|]. split; [exact Hne|].
  destruct (fit_print_width_centres_or_crops narrow_black Hwf Hne)
    as (canvas & Hfit & _ & Hw & Hh & _ & _ & Hnarrow & _).
  exists canvas. split; [exact Hfit|]. split; [exact Hw|].
  split; [exact Hh|].
  intros x y Hx Hy.
  exact (Hnarrow eq_refl x y Hx Hy).
Defined.

(** C8.  For an image 384 wide, reading the payload of the command back
    with the documented order (rows of 48 bytes, 8 pixels per byte, the
    leftmost pixel in the most significant bit) gives every pixel of the
    image back. *)
Theorem pack_unpack_roundtrip (img : Bitmap) :
  width img = PRINT_WIDTH -> 0 <= height img ->
  exists command,
    print_bitmap_command img = ret command
    /\ skipn 10 command = tobytes img ++ [10; 10; 10]
    /\ forall x y, 0 <= x < PRINT_WIDTH -> 0 <= y < height img ->
         unpack (tobytes img) x y = px img x y
         /\ unpack (skipn 10 command) x y = px img x y.
Proof.
  intros Hw Hh.
  assert (Hwf : wf img) by (unfold wf; rewrite Hw; unfold PRINT_WIDTH; lia).
  pose proof (fit_print_width_cases img Hwf) as H.
  rewrite Hw, Z.eqb_refl in H.
  eexists. split; [exact (print_bitmap_command_fitted _ _ _ Hwf H)|].
  split; [reflexivity|].
  intros x y Hx Hy. split.
  - rewrite <- (app_nil_r (tobytes img)). now apply unpack_tobytes.
  - change (skipn 10 (header (height img) ++ tobytes img ++ [10; 10; 10]))
      with (tobytes img ++ [10; 10; 10]).
    now apply unpack_tobytes.
Qed.

Lemma pack_unpack_roundtrip_witness :
  width two_black_rows = PRINT_WIDTH /\ 0 <= height two_black_rows /\
  exists command,
    print_bitmap_command two_black_rows = ret command
    /\ forall x y, 0 <= x < PRINT_WIDTH -> 0 <= y < 8 ->
         unpack (skipn 10 command) x y = (2 <=? y).
Proof.
  assert (H0 : 0 <= height two_black_rows) by (simpl; lia).
  split; [reflexivity|]. split; [exact H0|].
  destruct (pack_unpack_roundtrip two_black_rows eq_refl H0)
    as (command & Hc & _ & Hrt).
  exists command. split; [exact Hc|].
  intros x y Hx Hy. exact (proj2 (Hrt x y Hx Hy)).
Defined.

(** C10.  Whatever the width of the image, the canvas that is packed has
    the height of the input, the payload has 48 bytes for each of its rows,
    and yL yH are the low and the high byte of the input's height (the
    height itself whenever it fits 16 bits). *)
Theorem fit_print_width_keeps_height (img : Bitmap) :
  wf img ->
  exists canvas command,
    fit_print_width img = ret (canvas, PRINT_WIDTH)
    /\ height canvas = height img
    /\ print_bitmap_command img = ret command
    /\ skipn 10 command = tobytes canvas ++ [10; 10; 10]
    /\ Z.of_nat (length (tobytes canvas)) = 48 * height img
    /\ nth 8 command 0 = height img mod 256
    /\ nth 9 command 0 = height img / 256 mod 256
    /\ (height img < 65536 ->
        le16 (nth 8 command 0) (nth 9 command 0) = height img).
Proof.
  intros Hwf.
  destruct (print_bitmap_command_ok img Hwf) as (canvas & Hfit & Hw & Hh & Hc).
  exists canvas. eexists. split; [exact Hfit|]. split; [exact Hh|].
  split; [exact Hc|]. split; [reflexivity|].
  split; [rewrite tobytes_length_384; destruct Hwf; lia|].
  split; [reflexivity|]. split; [reflexivity|].
  intros Hlt.
  change (nth 8 (header (height img) ++ tobytes canvas ++ [10; 10; 10]) 0)
    with (height img mod 256).
  change (nth 9 (header (height img) ++ tobytes canvas ++ [10; 10; 10]) 0)
    with (height img / 256 mod 256).
  rewrite <- land_255, <- shiftr_8, <- (land_255 (Z.shiftr _ _)).
  apply le16_exact. destruct Hwf; lia.
Qed.

Lemma fit_print_width_keeps_height_witness :
  wf wide_image /\
  exists canvas command,
    fit_print_width wide_image = ret (canvas, PRINT_WIDTH)
    /\ height canvas = height wide_image
    /\ print_bitmap_command wide_image = ret command
    /\ le16 (nth 8 command 0) (nth 9 command 0) = 2.
Proof.
  assert (Hwf : wf wide_image) by (unfold wf; simpl; lia).
  split; [exact Hwf|].
  destruct (fit_print_width_keeps_height wide_image Hwf)
    as (canvas & command & Hfit & Hh & Hc & _ & _ & _ & _ & Hle).
  exists canvas, command. split; [exact Hfit|]. split; [exact Hh|].
  split; [exact Hc|]. apply Hle. simpl. lia.
Defined.

(** ** Lines of text *)

Lemma lstrip_nil_iff (s : str) :
  lstrip s = [] <-> forallb isspace s = true.
Proof.
  induction s as [|c s IH]; simpl; [tauto|].
  destruct (isspace c); simpl; [exact IH|]. split; discriminate.
Qed.

Lemma lstrip_blank_or_head (s : str) :
  lstrip s = [] \/ exists c r, lstrip s = c :: r /\ isspace c = false.
Proof.
  induction s as [|c s IH]; simpl; [now left|].
  destruct (isspace c) eqn:E; [exact IH|]. right. now exists c, s.
Qed.

Lemma strip_nil_iff (s : str) :
  strip s = [] <-> forallb isspace s = true.
Proof.
  unfold strip, rstrip. split.
  - intros H. apply lstrip_nil_iff.
    destruct (lstrip_blank_or_head s) as [E | (c & r & E & Hc)]; [exact E|].
    exfalso. rewrite E in H.
    apply (f_equal (@rev char)) in H. rewrite rev_involutive in H.
    simpl rev at 2 in H. apply lstrip_nil_iff in H.
    rewrite forallb_forall in H.
    specialize (H c). rewrite H in Hc; [discriminate|].
    apply in_rev. rewrite rev_involutive. apply in_eq.
  - intros H. apply lstrip_nil_iff in H. now rewrite H.
Qed.

Lemma split_nonempty (sep : char) (s : str) : split sep s <> [].
Proof.
  destruct s as [|c s]; simpl; [discriminate|].
  destruct (c =? sep); [discriminate|]. destruct (split sep s); discriminate.
Qed.

(** Every character of a text is the separator or lies in one piece. *)
Lemma split_covers (sep : char) (s : str) (c : char) :
  In c s -> c = sep \/ exists piece, In piece (split sep s) /\ In c piece.
Proof.
  induction s as [|x s IH]; simpl; [tauto|].
  intros [<- | Hc].
  - destruct (x =? sep) eqn:E; [left; now apply Z.eqb_eq|]. right.
    destruct (split sep s) as [|l ls]; eexists; split;
      try apply in_eq; apply in_eq.
  - destruct (IH Hc) as [-> | (piece & Hp & Hin)]; [now left|]. right.
    destruct (x =? sep); [exists piece; split; [now apply in_cons | assumption]|].
    destruct (split sep s) as [|l ls]; [contradiction|].
    destruct Hp as [<- | Hp].
    + exists (x :: l). split; [apply in_eq | now apply in_cons].
    + exists piece. split; [now apply in_cons | assumption].
Qed.

(** Every character of a piece is a character of the text. *)
Lemma split_pieces (sep : char) (s piece : str) (c : char) :
  In piece (split sep s) -> In c piece -> In c s.
Proof.
  revert piece. induction s as [|x s IH]; simpl; intros piece Hp Hc.
  - destruct Hp as [<- | []]. contradiction.
  - destruct (x =? sep).
    + destruct Hp as [<- | Hp]; [contradiction|]. right. eauto.
    + destruct (split sep s) as [|l ls] eqn:E.
      * destruct Hp as [<- | []]. destruct Hc as [<- | []]. now left.
      * destruct Hp as [<- | Hp].
        -- destruct Hc as [<- | Hc]; [now left|]. right.
           apply (IH l); [apply in_eq | assumption].
        -- right. apply (IH piece); [now apply in_cons | assumption].
Qed.

Lemma split_no_sep (sep : char) (s : str) :
  ~ In sep s -> split sep s = [s].
Proof.
  induction s as [|x s IH]; simpl; intros H; [reflexivity|].
  destruct (x =? sep) eqn:E; [apply Z.eqb_eq in E; tauto|].
  rewrite IH by tauto. reflexivity.
Qed.

(** No line is left exactly when the text is white space throughout. *)
Lemma text_lines_nil_iff (text : str) :
  text_lines text = [] <-> forallb isspace text = true.
Proof.
  unfold text_lines. split.
  - intros H. apply forallb_forall. intros c Hc.
    destruct (split_covers LF text c Hc) as [-> | (piece & Hp & Hin)];
      [reflexivity|].
    assert (Hs : strip piece = []).
    { destruct (strip piece) as [|a r] eqn:E; [reflexivity|]. exfalso.
      assert (Hin' : In (a :: r) (filter truthy (map strip (split LF text)))).
      { apply filter_In. split; [|reflexivity].
        rewrite <- E. now apply in_map. }
      now rewrite H in Hin'. }
    apply strip_nil_iff in Hs. rewrite forallb_forall in Hs. now apply Hs.
  - intros H. rewrite forallb_forall in H.
    destruct (filter truthy (map strip (split LF text))) as [|l ls] eqn:E;
      [reflexivity|]. exfalso.
    assert (Hin : In l (filter truthy (map strip (split LF text))))
      by (rewrite E; apply in_eq).
    apply filter_In in Hin as [Hin Ht].
    apply in_map_iff in Hin as (piece & <- & Hp).
    assert (Hs : strip piece = []).
    { apply strip_nil_iff, forallb_forall. intros c Hc.
      apply H. eapply split_pieces; eassumption. }
    now rewrite Hs in Ht.
Qed.

(** A text with no white space in it is its own single line. *)
Lemma text_lines_solid (text : str) :
  text <> [] -> (forall c, In c text -> isspace c = false) ->
  text_lines text = [text].
Proof.
  intros Hne Hsolid. unfold text_lines.
  rewrite split_no_sep
    by (intros Hin; apply Hsolid in Hin; discriminate).
  assert (Hl : forall s, s <> [] -> (forall c, In c s -> isspace c = false) ->
                         lstrip s = s).
  { intros [|c s] Hs Hc; [contradiction|]. simpl.
    now rewrite (Hc c (in_eq _ _)). }
  simpl map. unfold strip, rstrip.
  rewrite (Hl text Hne Hsolid).
  rewrite Hl, rev_involutive.
  - destruct text; [contradiction | reflexivity].
  - intros E. apply (f_equal (@rev char)) in E.
    rewrite rev_involutive in E. contradiction.
  - intros c Hc. apply Hsolid. now apply in_rev.
Qed.

Lemma max_by_len_nonempty (lines : list str) :
  lines <> [] -> exists longest, max_by_len lines = ret longest.
Proof.
  destruct lines as [|x xs]; [contradiction|]. intros _. eexists. reflexivity.
Qed.

(** ** The font-size search *)

Lemma max_by_len_In (lines : list str) (longest : str) :
  max_by_len lines = ret longest -> In longest lines.
Proof.
  destruct lines as [|x xs]; [discriminate|].
  unfold max_by_len, ret. intros H. injection H as <-.
  assert (G : forall l b, In (fold_left
            (fun best y : list Z =>
               if Z.of_nat (length best) <? Z.of_nat (length y) then y else best)
            l b) (b :: l)).
  { induction l as [|y l IH]; intros b; simpl; [now left|].
    match goal with |- context [if ?c then _ else _] => destruct c end.
    - right. apply IH.
    - destruct (IH b) as [E | Hin]; [left; exact E | right; right; exact Hin]. }
  apply G.
Qed.

Lemma midpoint_bounds (lo hi : Z) :
  lo <= hi -> lo <= (lo + hi) / 2 <= hi.
Proof.
  intros H.
  pose proof (Z.div_mod (lo + hi) 2 ltac:(lia)).
  pose proof (Z.mod_pos_bound (lo + hi) 2 ltac:(lia)). lia.
Qed.

Section FontSearch.
Context {R : Renderer}.
Variable longest_line : str.

(** The fuel is never what stops the loop: any two amounts that cover the
    interval give the same answer. *)
Lemma font_search_fuel (n m : nat) (lo hi best : Z) :
  hi - lo + 1 <= Z.of_nat n -> hi - lo + 1 <= Z.of_nat m ->
  font_search n longest_line lo hi best = font_search m longest_line lo hi best.
Proof.
  revert m lo hi best.
  induction n as [|n IH]; intros m lo hi best Hn Hm.
  - destruct m as [|m]; simpl; [reflexivity|].
    destruct (lo <=? hi) eqn:E; [lia | reflexivity].
  - simpl. destruct (lo <=? hi) eqn:E.
    + pose proof E as E'. apply Z.leb_le in E'.
      pose proof (midpoint_bounds lo hi E') as Hmid.
      destruct m as [|m]; [simpl in Hm; lia|].
      simpl. rewrite E.
      destruct (fits longest_line ((lo + hi) / 2)); apply IH; lia.
    + destruct m as [|m]; simpl; [reflexivity|]. now rewrite E.
Qed.

(** What the loop returns, with nothing assumed of the renderer: a size
    that fits while the next one does not, or the starting value of
    [best_font_size] when size 8 does not fit. *)
Lemma font_search_local (n : nat) (lo hi best : Z) :
  hi - lo + 1 <= Z.of_nat n ->
  8 <= lo -> hi <= 200 -> lo <= hi + 1 ->
  (lo = 8 \/ (8 < lo /\ fits longest_line (lo - 1) = true /\ best = lo - 1)) ->
  (hi = 200 \/ fits longest_line (hi + 1) = false) ->
  let r := font_search n longest_line lo hi best in
  (8 <= r <= 200 /\ fits longest_line r = true
   /\ (r = 200 \/ fits longest_line (r + 1) = false))
  \/ (r = best /\ lo = 8 /\ fits longest_line 8 = false).
Proof.
  revert lo hi best.
  assert (Hstop : forall lo hi best,
    hi < lo -> 8 <= lo -> hi <= 200 -> lo <= hi + 1 ->
    (lo = 8 \/ (8 < lo /\ fits longest_line (lo - 1) = true /\ best = lo - 1)) ->
    (hi = 200 \/ fits longest_line (hi + 1) = false) ->
    (8 <= best <= 200 /\ fits longest_line best = true
     /\ (best = 200 \/ fits longest_line (best + 1) = false))
    \/ (best = best /\ lo = 8 /\ fits longest_line 8 = false)).
  { intros lo hi best Hlt Hlo Hhi Hle Hl Hh.
    assert (hi = lo - 1) by lia. subst hi.
    destruct Hl as [-> | (Hgt & Hf & ->)].
    - right. destruct Hh as [Hh | Hh]; [lia|]. auto.
    - left. replace (lo - 1 + 1) with lo in * by lia.
      repeat split; try lia; assumption. }
  induction n as [|n IH]; intros lo hi best Hn Hlo Hhi Hle Hl Hh.
  - simpl. apply (Hstop lo hi); auto. simpl in Hn. lia.
  - simpl. destruct (lo <=? hi) eqn:E.
    + apply Z.leb_le in E.
      pose proof (midpoint_bounds lo hi E) as Hmid.
      destruct (fits longest_line ((lo + hi) / 2)) eqn:F.
      * destruct (IH ((lo + hi) / 2 + 1) hi ((lo + hi) / 2)) as [H | H];
          try lia; auto.
        right. replace ((lo + hi) / 2 + 1 - 1) with ((lo + hi) / 2) by lia.
        repeat split; try lia; assumption.
      * apply IH; try lia; auto.
        right. now replace ((lo + hi) / 2 - 1 + 1) with ((lo + hi) / 2) by lia.
    + apply Z.leb_gt in E. apply (Hstop lo hi); auto.
Qed.

(** When the measured width does not shrink as the size grows, a size that
    fits makes every smaller size fit. *)
Lemma fits_antitone (s s' : Z) :
  width_monotone longest_line ->
  8 <= s' -> s' <= s -> s <= 200 ->
  fits longest_line s = true -> fits longest_line s' = true.
Proof.
  unfold fits. intros Hm H8 Hle H200 Hf.
  apply Z.leb_le in Hf. apply Z.leb_le.
  specialize (Hm s s' H8 Hle H200). lia.
Qed.

Lemma search_font_size_monotone :
  width_monotone longest_line ->
  let sz := search_font_size longest_line in
  (8 <= sz <= 200
   /\ bbox_width (load_font sz) longest_line <= PRINT_WIDTH - 20
   /\ forall s, 8 <= s <= 200 ->
        bbox_width (load_font s) longest_line <= PRINT_WIDTH - 20 -> s <= sz)
  \/ ((forall s, 8 <= s <= 200 ->
         PRINT_WIDTH - 20 < bbox_width (load_font s) longest_line)
      /\ sz = 16).
Proof.
  intros Hm. unfold search_font_size.
  destruct (font_search_local (Z.to_nat (200 - 8 + 1)) 8 200 16)
    as [(Hr & Hf & Hnext) | (Hr & _ & H8)]; try lia; auto.
  - left. split; [exact Hr|]. split; [unfold fits in Hf; now apply Z.leb_le|].
    intros s Hs Hw.
    destruct (Z_le_gt_dec s (font_search (Z.to_nat (200 - 8 + 1)) longest_line 8 200 16))
      as [Hle | Hgt]; [exact Hle|]. exfalso.
    destruct Hnext as [E | Hnext]; [lia|].
    assert (Hs' : fits longest_line s = true)
      by (unfold fits; now apply Z.leb_le).
    assert (Hn : fits longest_line
              (font_search (Z.to_nat (200 - 8 + 1)) longest_line 8 200 16 + 1)
            = true)
      by (apply (fits_antitone s); try assumption; lia).
    congruence.
  - right. split; [|exact Hr].
    intros s Hs.
    destruct (Z_lt_le_dec (PRINT_WIDTH - 20) (bbox_width (load_font s) longest_line))
      as [Hlt | Hle]; [exact Hlt|]. exfalso.
    assert (Hs' : fits longest_line s = true)
      by (unfold fits; now apply Z.leb_le).
    assert (Hn : fits longest_line 8 = true)
      by (apply (fits_antitone s); try assumption; lia).
    congruence.
Qed.

End FontSearch.

(** ** The block renderer *)

Lemma block_load_font (s : Z) : load_font (R := block_renderer) s = s.
Proof. reflexivity. Qed.

Lemma block_bbox_width (s : Z) (line : str) :
  bbox_width (R := block_renderer) (load_font (R := block_renderer) s) line
  = s * Z.of_nat (length line).
Proof. unfold bbox_width. rewrite block_load_font. simpl. lia. Qed.

Lemma block_renderer_monotone (line : str) :
  width_monotone (R := block_renderer) line.
Proof.
  intros s s' H8 Hle H200. rewrite !block_bbox_width. nia.
Qed.

(** ** The claims about [text_to_bitmap] *)

(** C5.  When splitting on line breaks, stripping and dropping the empty
    lines leaves nothing - which happens exactly for a text that is white
    space throughout - [text_to_bitmap] raises (the [ValueError] of [max]
    on an empty list) before any font is tried or image made. *)
Theorem text_to_bitmap_empty_input {R : Renderer} (text : str) :
  text_lines text = [] ->
  text_to_bitmap text = raise (ValueError "max() arg is an empty sequence")
  /\ chosen_font_size text = raise (ValueError "max() arg is an empty sequence")
  /\ forallb isspace text = true.
Proof.
  intros H. split; [|split].
  - unfold text_to_bitmap. rewrite H. reflexivity.
  - unfold chosen_font_size. rewrite H. reflexivity.
  - now apply text_lines_nil_iff.
Qed.

Lemma text_to_bitmap_empty_input_witness :
  text_lines [SPACE; LF; 9] = [] /\
  text_to_bitmap (R := block_renderer) [SPACE; LF; 9]
  = raise (ValueError "max() arg is an empty sequence").
Proof.
  split; [reflexivity|].
  exact (proj1 (text_to_bitmap_empty_input (R := block_renderer)
                  [SPACE; LF; 9] eq_refl)).
Defined.

(** C2, as the code has it.  For a text with at least one line, and a
    renderer whose measured width does not shrink as the size grows, the
    size chosen is the largest in 8..200 at which the longest line is at
    most [PRINT_WIDTH - 20] wide; when no size in 8..200 fits, the size is
    16, the value [best_font_size] starts with. *)
Theorem chosen_font_size_largest_or_default {R : Renderer} (text : str) :
  text_lines text <> [] ->
  (forall line, In line (text_lines text) -> width_monotone line) ->
  exists longest sz,
    max_by_len (text_lines text) = ret longest
    /\ chosen_font_size text = ret sz
    /\ ((8 <= sz <= 200
         /\ bbox_width (load_font sz) longest <= PRINT_WIDTH - 20
         /\ forall s, 8 <= s <= 200 ->
              bbox_width (load_font s) longest <= PRINT_WIDTH - 20 -> s <= sz)
        \/ ((forall s, 8 <= s <= 200 ->
               PRINT_WIDTH - 20 < bbox_width (load_font s) longest)
            /\ sz = 16)).
Proof.
  intros Hne Hm.
  destruct (max_by_len_nonempty _ Hne) as [longest Hl].
  exists longest, (search_font_size longest).
  split; [exact Hl|]. split.
  - unfold chosen_font_size. rewrite Hl. reflexivity.
  - apply search_font_size_monotone. apply Hm. now apply max_by_len_In.
Qed.

Lemma chosen_font_size_largest_or_default_witness :
  text_lines hello <> [] /\
  (forall line, In line (text_lines hello) ->
     width_monotone (R := block_renderer) line) /\
  exists longest sz,
    max_by_len (text_lines hello) = ret longest
    /\ chosen_font_size (R := block_renderer) hello = ret sz
    /\ ((8 <= sz <= 200
         /\ bbox_width (R := block_renderer) (load_font sz) longest
            <= PRINT_WIDTH - 20
         /\ forall s, 8 <= s <= 200 ->
              bbox_width (R := block_renderer) (load_font s) longest
              <= PRINT_WIDTH - 20 -> s <= sz)
        \/ ((forall s, 8 <= s <= 200 ->
               PRINT_WIDTH - 20
               < bbox_width (R := block_renderer) (load_font s) longest)
            /\ sz = 16)).
Proof.
  assert (Hne : text_lines hello <> []) by discriminate.
  assert (Hm : forall line, In line (text_lines hello) ->
                 width_monotone (R := block_renderer) line)
    by (intros line _; apply block_renderer_monotone).
  split; [exact Hne|]. split; [exact Hm|].
  exact (chosen_font_size_largest_or_default (R := block_renderer) hello Hne Hm).
Defined.

(** C2 fails on the code: fifty letters are wider than 364 at every size of
    the block renderer, size 8 included, and the size chosen is 16, not 8;
    at 16 the line is 800 wide. *)
Lemma chosen_font_size_default_is_16 :
  max_by_len (text_lines fifty_m) = ret fifty_m
  /\ chosen_font_size (R := block_renderer) fifty_m = ret 16
  /\ 16 <> 8
  /\ bbox_width (R := block_renderer) (load_font 16) fifty_m = 800
  /\ forallb (fun s => PRINT_WIDTH - 20
                       <? bbox_width (R := block_renderer) (load_font s) fifty_m)
             (map (Z.add 8) (zrange 193)) = true.
Proof.
  split; [reflexivity|]. split; [vm_compute; reflexivity|].
  split; [discriminate|]. split; vm_compute; reflexivity.
Qed.

(** ** The clean-up of [markdown_to_bitmap] *)

(** Replacing a one-character pattern acts on each character by itself. *)
Lemma replace_single (s : str) (c : char) (new : str) :
  replace s [c] new = flat_map (fun x => if x =? c then new else [x]) s.
Proof.
  unfold replace. induction s as [|x s IH]; [reflexivity|].
  simpl. rewrite andb_true_r.
  destruct (x =? c); simpl; now rewrite IH.
Qed.

Lemma replace_single_app (a b : str) (c : char) (new : str) :
  replace (a ++ b) [c] new = replace a [c] new ++ replace b [c] new.
Proof. rewrite !replace_single. apply flat_map_app. Qed.

Lemma replace_single_In (s : str) (c x : char) (new : str) :
  In x (replace s [c] new) -> (In x s /\ x <> c) \/ In x new.
Proof.
  rewrite replace_single, in_flat_map. intros (y & Hy & Hx).
  destruct (y =? c) eqn:E; [now right|].
  destruct Hx as [<- | []]. left. split; [assumption|].
  now apply Z.eqb_neq.
Qed.

Lemma replace_single_absent (s : str) (c : char) (new : str) :
  ~ In c s -> replace s [c] new = s.
Proof.
  rewrite replace_single. induction s as [|x s IH]; intros H; [reflexivity|].
  simpl. destruct (x =? c) eqn:E.
  - apply Z.eqb_eq in E. subst. exfalso. apply H. apply in_eq.
  - simpl. rewrite IH; [reflexivity|]. intros Hin. apply H. now apply in_cons.
Qed.

(** No occurrence of the escape straddles a cut whose right part does not
    begin with the letter n. *)
Lemma replace_escape_cut (a rest : str) :
  startswith rest [LOWER_N] = false ->
  replace_from ESCAPE [LF] 0 (a ++ rest)
  = replace_from ESCAPE [LF] 0 a ++ replace_from ESCAPE [LF] 0 rest
  /\ (a <> [] ->
      replace_from ESCAPE [LF] 1 (a ++ rest)
      = replace_from ESCAPE [LF] 1 a ++ replace_from ESCAPE [LF] 0 rest).
Proof.
  intros Hrest. induction a as [|x a [IH0 IH1]].
  - split; [reflexivity | congruence].
  - split; [|intros _; simpl; exact IH0].
    assert (Htest : startswith ((x :: a) ++ rest) ESCAPE = startswith (x :: a) ESCAPE).
    { simpl. f_equal. destruct a as [|y a]; [|reflexivity].
      simpl app. destruct rest as [|r rest]; [reflexivity|].
      simpl in Hrest. simpl. exact Hrest. }
    change (replace_from ESCAPE [LF] 0 ((x :: a) ++ rest))
      with (if startswith ((x :: a) ++ rest) ESCAPE
            then [LF] ++ replace_from ESCAPE [LF] 1 (a ++ rest)
            else x :: replace_from ESCAPE [LF] 0 (a ++ rest)).
    change (replace_from ESCAPE [LF] 0 (x :: a))
      with (if startswith (x :: a) ESCAPE
            then [LF] ++ replace_from ESCAPE [LF] 1 a
            else x :: replace_from ESCAPE [LF] 0 a).
    rewrite Htest. destruct (startswith (x :: a) ESCAPE) eqn:E.
    + rewrite IH1; [reflexivity|].
      intros ->. simpl in E. now rewrite andb_false_r in E.
    + rewrite IH0. reflexivity.
Qed.

Lemma replace_escape_eq (s : str) :
  replace s ESCAPE [LF] = replace_from ESCAPE [LF] 0 s.
Proof. reflexivity. Qed.

Lemma replace_escape_app_escape (a b : str) :
  replace (a ++ ESCAPE ++ b) ESCAPE [LF]
  = replace a ESCAPE [LF] ++ [LF] ++ replace b ESCAPE [LF].
Proof.
  rewrite !replace_escape_eq.
  rewrite (proj1 (replace_escape_cut a (ESCAPE ++ b) eq_refl)).
  reflexivity.
Qed.

Lemma replace_escape_app_char (a b : str) (c : char) :
  c <> BACKSLASH -> c <> LOWER_N ->
  replace (a ++ [c] ++ b) ESCAPE [LF]
  = replace a ESCAPE [LF] ++ [c] ++ replace b ESCAPE [LF].
Proof.
  intros Hb Hn. rewrite !replace_escape_eq.
  assert (Hc : startswith ([c] ++ b) [LOWER_N] = false).
  { simpl. apply Z.eqb_neq in Hn. now rewrite Hn. }
  rewrite (proj1 (replace_escape_cut a ([c] ++ b) Hc)).
  f_equal. simpl. apply Z.eqb_neq in Hb. now rewrite Hb.
Qed.

Lemma replace_escape_absent (s : str) :
  ~ In BACKSLASH s -> replace s ESCAPE [LF] = s.
Proof.
  rewrite replace_escape_eq.
  induction s as [|x s IH]; intros H; [reflexivity|].
  simpl. destruct (x =? BACKSLASH) eqn:E.
  - apply Z.eqb_eq in E. subst. exfalso. apply H, in_eq.
  - simpl. rewrite IH; [reflexivity|].
    intros Hin. apply H. now apply in_cons.
Qed.

Lemma clean_up_text_unfold (t : str) :
  clean_up_text t
  = replace (replace (replace (replace (replace t ESCAPE [LF])
       [WHITE_SQUARE] [BULLET; SPACE]) [BALLOT_BOX] [BULLET; SPACE])
       [HASH] []) [STAR] [].
Proof. reflexivity. Qed.

Ltac peel_replace H :=
  repeat (apply replace_single_In in H;
          destruct H as [[H ?Hne] | H];
          [try match goal with
               | Hn : ?x <> ?x |- _ => exfalso; apply Hn; reflexivity
               end
          | exfalso; cbv in H; intuition discriminate]).

(** What the clean-up leaves out. *)
Lemma clean_up_text_removes (t : str) :
  ~ In HASH (clean_up_text t) /\ ~ In STAR (clean_up_text t)
  /\ ~ In WHITE_SQUARE (clean_up_text t) /\ ~ In BALLOT_BOX (clean_up_text t).
Proof.
  rewrite clean_up_text_unfold.
  repeat split; intros H; peel_replace H.
Qed.

(** How the clean-up acts on a text cut at one of its patterns. *)
Lemma clean_up_text_escape (a b : str) :
  clean_up_text (a ++ [BACKSLASH; LOWER_N] ++ b)
  = clean_up_text a ++ [LF] ++ clean_up_text b.
Proof.
  rewrite !clean_up_text_unfold.
  change [BACKSLASH; LOWER_N] with ESCAPE.
  rewrite replace_escape_app_escape.
  now rewrite !replace_single_app.
Qed.

Lemma clean_up_text_char (a b : str) (c : char) :
  c <> BACKSLASH -> c <> LOWER_N ->
  clean_up_text (a ++ [c] ++ b)
  = clean_up_text a ++ clean_up_text [c] ++ clean_up_text b.
Proof.
  intros Hb Hn. rewrite !clean_up_text_unfold.
  rewrite replace_escape_app_char by assumption.
  rewrite !replace_single_app.
  replace (replace [c] ESCAPE [LF]) with [c]; [reflexivity|].
  rewrite replace_escape_eq. simpl. apply Z.eqb_neq in Hb. now rewrite Hb.
Qed.

Lemma clean_up_text_plain (t : str) :
  ~ In BACKSLASH t -> ~ In WHITE_SQUARE t -> ~ In BALLOT_BOX t ->
  ~ In HASH t -> ~ In STAR t ->
  clean_up_text t = t.
Proof.
  intros. rewrite clean_up_text_unfold, replace_escape_absent by assumption.
  rewrite (replace_single_absent t WHITE_SQUARE) by assumption.
  rewrite (replace_single_absent t BALLOT_BOX) by assumption.
  rewrite (replace_single_absent t HASH) by assumption.
  now rewrite (replace_single_absent t STAR) by assumption.
Qed.

(** C3, as the code has it.  Only [markdown_to_bitmap] cleans its text, and
    it does so before anything is drawn: the image depends on the input
    through the cleaned text alone.  The clean-up turns each escape
    (backslash, n) into a line break and each of the two checkbox glyphs
    into a bullet and a space, and drops every '#' and '*'; none of '#',
    '*' and the two glyphs is left.  [text_to_bitmap] has no such step: a
    text without white space is taken as its one line, symbols included. *)
Theorem clean_up_text_in_markdown_only {R : Renderer} :
  (forall t,
     ~ In HASH (clean_up_text t) /\ ~ In STAR (clean_up_text t)
     /\ ~ In WHITE_SQUARE (clean_up_text t) /\ ~ In BALLOT_BOX (clean_up_text t))
  /\ (forall a b,
        clean_up_text (a ++ [BACKSLASH; LOWER_N] ++ b)
        = clean_up_text a ++ [LF] ++ clean_up_text b)
  /\ (forall a b,
        clean_up_text (a ++ [WHITE_SQUARE] ++ b)
        = clean_up_text a ++ [BULLET; SPACE] ++ clean_up_text b)
  /\ (forall a b,
        clean_up_text (a ++ [BALLOT_BOX] ++ b)
        = clean_up_text a ++ [BULLET; SPACE] ++ clean_up_text b)
  /\ (forall a b,
        clean_up_text (a ++ [HASH] ++ b) = clean_up_text a ++ clean_up_text b)
  /\ (forall a b,
        clean_up_text (a ++ [STAR] ++ b) = clean_up_text a ++ clean_up_text b)
  /\ (forall t t',
        clean_up_text t = clean_up_text t' ->
        markdown_to_bitmap t = markdown_to_bitmap t')
  /\ (forall t,
        t <> [] -> (forall c, In c t -> isspace c = false) ->
        text_lines t = [t]).
Proof.
  split; [exact clean_up_text_removes|].
  split; [exact clean_up_text_escape|].
  split; [intros a b; now rewrite clean_up_text_char by discriminate|].
  split; [intros a b; now rewrite clean_up_text_char by discriminate|].
  split; [intros a b; now rewrite clean_up_text_char by discriminate|].
  split; [intros a b; now rewrite clean_up_text_char by discriminate|].
  split; [|exact text_lines_solid].
  intros t t' H. unfold markdown_to_bitmap. now rewrite H.
Qed.

Lemma clean_up_text_in_markdown_only_witness :
  heading <> [] /\ (forall c, In c heading -> isspace c = false) /\
  text_lines heading = [heading].
Proof.
  assert (Hne : heading <> []) by discriminate.
  assert (Hs : forall c, In c heading -> isspace c = false)
    by (intros c [<- | [<- | [<- | []]]]; reflexivity).
  split; [exact Hne|]. split; [exact Hs|].
  exact (proj2 (proj2 (proj2 (proj2 (proj2 (proj2 (proj2
           (clean_up_text_in_markdown_only (R := block_renderer)))))))) heading Hne Hs).
Defined.

(** C3 fails on the code: [text_to_bitmap] lays out "#a*" with its '#' and
    '*', and an escape stays two characters on one line.  With the block
    renderer the image of "#a*" is 146 high (three characters, size 121)
    while that of the cleaned text "a" is 225 high (size 200). *)
Lemma text_to_bitmap_keeps_symbols :
  text_lines heading = [heading]
  /\ In HASH heading /\ In STAR heading
  /\ clean_up_text heading = [97]
  /\ text_lines [97; BACKSLASH; LOWER_N; 98] = [[97; BACKSLASH; LOWER_N; 98]]
  /\ clean_up_text [97; BACKSLASH; LOWER_N; 98] = [97; LF; 98]
  /\ exists img img',
       text_to_bitmap (R := block_renderer) heading = ret img
       /\ text_to_bitmap (R := block_renderer) (clean_up_text heading) = ret img'
       /\ height img = 146 /\ height img' = 225.
Proof.
  split; [reflexivity|]. split; [simpl; auto|]. split; [simpl; auto|].
  split; [reflexivity|]. split; [reflexivity|]. split; [reflexivity|].
  eexists. eexists. split; [reflexivity|]. split; [reflexivity|].
  split; reflexivity.
Qed.

(** ** The bounding box of [markdown_to_bitmap] *)

Lemma zrange_cons (n : Z) : 0 < n -> exists l, zrange n = 0 :: l.
Proof.
  intros H. unfold zrange.
  destruct (Z.to_nat n) as [|k] eqn:E; [lia|]. simpl. eauto.
Qed.

Lemma rev_zrange_cons (n : Z) : 0 < n -> exists l, rev (zrange n) = (n - 1) :: l.
Proof.
  intros H.
  assert (E : zrange n = zrange (n - 1) ++ [n - 1])
    by (rewrite <- zrange_succ by lia; f_equal; lia).
  rewrite E, rev_app_distr. simpl. eauto.
Qed.

Lemma col_nonzero_true (img : Bitmap) (x y : Z) :
  0 <= y < height img -> px img x y = true -> col_nonzero img x = true.
Proof.
  intros Hy Hp. unfold col_nonzero. apply existsb_exists.
  exists y. split; [now apply zrange_In | assumption].
Qed.

Lemma row_nonzero_true (img : Bitmap) (x y : Z) :
  0 <= x < width img -> px img x y = true -> row_nonzero img y = true.
Proof.
  intros Hx Hp. unfold row_nonzero. apply existsb_exists.
  exists x. split; [now apply zrange_In | assumption].
Qed.

(** An image whose top-left, top-right and bottom-left pixels are set has
    the whole image as its bounding box. *)
Lemma getbbox_full (img : Bitmap) :
  0 < width img -> 0 < height img ->
  px img 0 0 = true ->
  px img (width img - 1) 0 = true ->
  px img 0 (height img - 1) = true ->
  getbbox img = Some (0, 0, width img, height img).
Proof.
  intros Hw Hh H00 Hw0 H0h. unfold getbbox.
  destruct (rev_zrange_cons _ Hw) as [rw ->].
  destruct (rev_zrange_cons _ Hh) as [rh ->].
  destruct (zrange_cons _ Hw) as [lw ->].
  destruct (zrange_cons _ Hh) as [lh ->].
  cbn [find].
  rewrite (col_nonzero_true img 0 0) by (assumption || lia).
  rewrite (row_nonzero_true img 0 0) by (assumption || lia).
  rewrite (col_nonzero_true img (width img - 1) 0) by (assumption || lia).
  rewrite (row_nonzero_true img 0 (height img - 1)) by (assumption || lia).
  do 4 f_equal; lia.
Qed.

Lemma block_margin : margin_stays_white (R := block_renderer).
Proof.
  intros f text x y Hx Hy Hm.
  unfold drawn_canvas, convert_1, multiline_text. cbn [px width height].
  cbn [convert_1_px multiline_text_px block_renderer].
  assert (E : in_block 10 10 (f * Z.of_nat (length text)) f x y = false).
  { unfold in_block.
    destruct (10 <=? x) eqn:E1; [|reflexivity].
    destruct (10 <=? y) eqn:E2; [lia|].
    now rewrite andb_false_r. }
  cbn [px]. rewrite E. reflexivity.
Qed.

Section MarkdownCanvas.
Context {R : Renderer}.
Hypothesis margin : margin_stays_white.

(** With the margin white the bounding box is the whole canvas, so the
    crop takes nothing away. *)
Lemma markdown_to_bitmap_uncropped (markdown_text : str) :
  markdown_to_bitmap markdown_text
  = ret (point invert
           (crop (drawn_canvas markdown_font (clean_up_text markdown_text))
                 (0, 0, PRINT_WIDTH, 2000))).
Proof.
  unfold markdown_to_bitmap.
  change (new PRINT_WIDTH 2000 white_rgb)
    with (ret (mkImage PRINT_WIDTH 2000 (fun _ _ => white_rgb))).
  cbn [bind ret].
  change (convert_1 (multiline_text markdown_font 10 10
            (clean_up_text markdown_text)
            (mkImage PRINT_WIDTH 2000 (fun _ _ => white_rgb))))
    with (drawn_canvas markdown_font (clean_up_text markdown_text)).
  rewrite (getbbox_full (drawn_canvas markdown_font (clean_up_text markdown_text)));
    try reflexivity; try (apply margin; unfold PRINT_WIDTH; simpl; lia).
Qed.

(** For every text the image returned is the full 384 x 2000 canvas. *)
Lemma markdown_to_bitmap_size (markdown_text : str) :
  exists img,
    markdown_to_bitmap markdown_text = ret img
    /\ size img = (PRINT_WIDTH, 2000).
Proof.
  eexists. split; [apply markdown_to_bitmap_uncropped|]. reflexivity.
Qed.

End MarkdownCanvas.

(** C6 fails on the code.  [getbbox] bounds the samples that are not zero,
    and on the white canvas those are the background: the box is the whole
    canvas and the crop removes nothing.  With the block renderer the text
    "a" is a 10 x 10 square at (10, 10): the image returned has its ink in
    exactly that square, rows 10 to 19, and is nevertheless 2000 high. *)
Theorem markdown_to_bitmap_keeps_full_canvas :
  exists img,
    markdown_to_bitmap (R := block_renderer) [97] = ret img
    /\ size img = (PRINT_WIDTH, 2000)
    /\ forall x y, 0 <= x < PRINT_WIDTH -> 0 <= y < 2000 ->
         (px img x y = true <-> 10 <= x < 20 /\ 10 <= y < 20).
Proof.
  eexists. split; [apply (markdown_to_bitmap_uncropped block_margin)|].
  split; [reflexivity|].
  intros x y Hx Hy.
  unfold point, crop, drawn_canvas, convert_1, multiline_text, inside.
  cbn [px width height convert_1_px multiline_text_px block_renderer].
  unfold PRINT_WIDTH in *. rewrite !Z.add_0_r.
  destruct (0 <=? x) eqn:E1; [|lia]. destruct (x <? 384) eqn:E2; [|lia].
  destruct (0 <=? y) eqn:E3; [|lia]. destruct (y <? 2000) eqn:E4; [|lia].
  cbn [andb].
  change (markdown_font (R := block_renderer)) with 10.
  change (10 * Z.of_nat (length (clean_up_text [97]))) with 10.
  unfold in_block.
  destruct (10 <=? x) eqn:F1, (x <? 10 + 10) eqn:F2,
           (10 <=? y) eqn:F3, (y <? 10 + 10) eqn:F4;
    cbn; split; intros; try discriminate; try lia; reflexivity.
Qed.


(** * Further properties of the code *)

(** ** [print_bitmap]: bytes and payload for any width *)

Lemma header_bytes (h b : Z) : In b (header h) -> 0 <= b < 256.
Proof.
  unfold header.
  pose proof (Z.mod_pos_bound h 256 ltac:(lia)).
  pose proof (Z.mod_pos_bound (h / 256) 256 ltac:(lia)).
  simpl. intuition lia.
Qed.

(** Every byte of the command is a byte: appending to the [bytearray] never
    fails, whatever the height. *)
Theorem print_bitmap_command_bytes (img : Bitmap) :
  wf img ->
  exists command,
    print_bitmap_command img = ret command
    /\ Forall (fun b => 0 <= b < 256) command.
Proof.
  intros Hwf.
  destruct (print_bitmap_command_ok img Hwf) as (canvas & _ & _ & _ & Hc).
  eexists. split; [exact Hc|].
  apply Forall_forall. intros b Hb.
  apply in_app_or in Hb as [Hb | Hb]; [now apply (header_bytes (height img))|].
  apply in_app_or in Hb as [Hb | Hb]; [now apply (tobytes_range canvas)|].
  simpl in Hb. intuition lia.
Qed.

Lemma print_bitmap_command_bytes_witness :
  wf tall_image /\
  exists command,
    print_bitmap_command tall_image = ret command
    /\ Forall (fun b => 0 <= b < 256) command.
Proof.
  assert (Hwf : wf tall_image) by (unfold wf; simpl; lia).
  split; [exact Hwf|]. exact (print_bitmap_command_bytes tall_image Hwf).
Defined.

Lemma fit_print_width_px (img canvas : Bitmap) (w x y : Z) :
  wf img ->
  fit_print_width img = ret (canvas, w) ->
  0 <= x < PRINT_WIDTH -> 0 <= y < height img ->
  px canvas x y = canvas_pixel img x y.
Proof.
  intros Hwf Hfit Hx Hy. unfold canvas_pixel.
  rewrite (fit_print_width_cases img Hwf) in Hfit.
  destruct Hwf as [Hw Hh].
  destruct (width img =? PRINT_WIDTH) eqn:E.
  - replace canvas with img by (unfold ret in Hfit; congruence). reflexivity.
  - apply Z.eqb_neq in E.
    destruct (width img <? PRINT_WIDTH) eqn:E'.
    + replace canvas with
        (paste (mkImage PRINT_WIDTH (height img) (fun _ _ => white)) img
               ((PRINT_WIDTH - width img) / 2) 0)
        by (unfold ret in Hfit; congruence).
      unfold paste, inside; cbn [px width height].
      set (offset := (PRINT_WIDTH - width img) / 2).
      replace (y - 0) with y by lia.
      destruct (offset <=? x) eqn:E1, (x <? offset + width img) eqn:E2;
        destruct (0 <=? x - offset) eqn:E3, (x - offset <? width img) eqn:E4;
        try lia;
        destruct (0 <=? y) eqn:E5, (y <? height img) eqn:E6; try lia;
        reflexivity.
    + replace canvas with (crop img (0, 0, PRINT_WIDTH, height img))
        by (unfold ret in Hfit; congruence).
      unfold crop, inside; cbn [px width height]. rewrite !Z.add_0_r.
      destruct (0 <=? x) eqn:E1, (x <? width img) eqn:E2,
               (0 <=? y) eqn:E5, (y <? height img) eqn:E6; try lia.
      reflexivity.
Qed.

(** Read back with the documented bit order, the payload of the command is
    the input itself when it is 384 wide, the input centred on white when it
    is narrower, and its columns 0..383 when it is wider. *)
Theorem payload_reads_back (img : Bitmap) :
  wf img ->
  exists command,
    print_bitmap_command img = ret command
    /\ forall x y, 0 <= x < PRINT_WIDTH -> 0 <= y < height img ->
         unpack (skipn 10 command) x y = canvas_pixel img x y.
Proof.
  intros Hwf.
  destruct (print_bitmap_command_ok img Hwf) as (canvas & Hfit & Hw & Hh & Hc).
  eexists. split; [exact Hc|].
  intros x y Hx Hy.
  change (skipn 10 (header (height img) ++ tobytes canvas ++ [10; 10; 10]))
    with (tobytes canvas ++ [10; 10; 10]).
  rewrite unpack_tobytes by (rewrite ?Hh; assumption).
  now apply (fit_print_width_px img canvas PRINT_WIDTH).
Qed.

Lemma payload_reads_back_witness :
  wf narrow_black /\
  exists command,
    print_bitmap_command narrow_black = ret command
    /\ forall x y, 0 <= x < PRINT_WIDTH -> 0 <= y < height narrow_black ->
         unpack (skipn 10 command) x y = canvas_pixel narrow_black x y.
Proof.
  assert (Hwf : wf narrow_black) by (unfold wf; simpl; lia).
  split; [exact Hwf|]. exact (payload_reads_back narrow_black Hwf).
Defined.


(** ** [text_to_bitmap]: the lines and the anchor *)

#[local] Abbreviation pick_longer :=
  (fun best y : str =>
     if Z.of_nat (length best) <? Z.of_nat (length y) then y else best).

Lemma max_by_len_fold (xs : list str) (b : str) (pre mid : list str) :
  (forall l, In l pre -> (length l < length b)%nat) ->
  (forall l, In l mid -> (length l <= length b)%nat) ->
  exists before after,
    pre ++ b :: mid ++ xs
    = before
      ++ fold_left pick_longer xs b
      :: after
    /\ (forall l, In l before ->
          (length l < length (fold_left pick_longer xs b))%nat)
    /\ (forall l, In l after ->
          (length l <= length (fold_left pick_longer xs b))%nat).
Proof.
  revert b pre mid. induction xs as [|y xs IH]; intros b pre mid Hpre Hmid.
  - exists pre, mid. simpl. rewrite app_nil_r. auto.
  - simpl fold_left.
    destruct (Z.of_nat (length b) <? Z.of_nat (length y)) eqn:E.
    + apply Z.ltb_lt in E.
      destruct (IH y (pre ++ b :: mid) []) as (before & after & Heq & Hb & Ha).
      * intros l Hl. apply in_app_or in Hl as [Hl | [<- | Hl]].
        -- specialize (Hpre l Hl). lia.
        -- lia.
        -- specialize (Hmid l Hl). lia.
      * intros l [].
      * exists before, after. split; [|auto].
        rewrite <- Heq. rewrite <- app_assoc. reflexivity.
    + apply Z.ltb_ge in E.
      destruct (IH b pre (mid ++ [y])) as (before & after & Heq & Hb & Ha).
      * exact Hpre.
      * intros l Hl. apply in_app_or in Hl as [Hl | [<- | []]]; [auto | lia].
      * exists before, after. split; [|auto].
        rewrite <- Heq. rewrite <- app_assoc. reflexivity.
Qed.

(** [max(lines, key=len)] is a line no other line is longer than, and the
    first of these: every line before it is strictly shorter. *)
Theorem max_by_len_first_longest (lines : list str) (longest : str) :
  max_by_len lines = ret longest ->
  exists before after,
    lines = before ++ longest :: after
    /\ (forall l, In l before -> (length l < length longest)%nat)
    /\ (forall l, In l after -> (length l <= length longest)%nat).
Proof.
  destruct lines as [|x xs]; [discriminate|].
  unfold max_by_len, ret. intros H. injection H as <-.
  destruct (max_by_len_fold xs x [] []) as (before & after & Heq & Hb & Ha);
    try (intros l []).
  exists before, after. split; [exact Heq | split; assumption].
Qed.

Lemma max_by_len_first_longest_witness :
  max_by_len [[97]; [98; 99]; [100; 101]; [102]] = ret [98; 99] /\
  exists before after,
    [[97]; [98; 99]; [100; 101]; [102]] = before ++ [98; 99] :: after
    /\ (forall l, In l before -> (length l < 2)%nat)
    /\ (forall l, In l after -> (length l <= 2)%nat).
Proof.
  split; [reflexivity|].
  exact (max_by_len_first_longest [[97]; [98; 99]; [100; 101]; [102]] [98; 99]
           eq_refl).
Defined.

Lemma lstrip_split (s : str) :
  exists ws, s = ws ++ lstrip s /\ forallb isspace ws = true.
Proof.
  induction s as [|c s (ws & E & Hws)]; [exists []; auto|].
  simpl. destruct (isspace c) eqn:Ec.
  - exists (c :: ws). simpl. rewrite Ec, Hws. split; [now f_equal | reflexivity].
  - exists []. auto.
Qed.

(** A stripped string that is not empty begins and ends with a character
    that is not white space, and is a piece of the string it comes from. *)
Lemma strip_shape (s : str) (c : char) (r : str) :
  strip s = c :: r ->
  isspace c = false
  /\ isspace (last (c :: r) c) = false
  /\ exists ws ws', s = ws ++ (c :: r) ++ ws'.
Proof.
  unfold strip, rstrip. intros H.
  destruct (lstrip_split s) as (ws & Es & Hws).
  destruct (lstrip_split (rev (lstrip s))) as (ws' & Er & Hws').
  apply (f_equal (@rev char)) in Er.
  rewrite rev_involutive, rev_app_distr, H in Er.
  assert (Hs : s = ws ++ (c :: r) ++ rev ws') by (rewrite <- Er; exact Es).
  split; [|split; [|eauto]].
  - destruct (lstrip_blank_or_head s) as [E | (d & u & E & Hd)].
    + rewrite E in Er. discriminate.
    + rewrite E in Er. injection Er as <- _. exact Hd.
  - destruct (lstrip_blank_or_head (rev (lstrip s))) as [E | (d & u & E & Hd)].
    + rewrite E in H. discriminate.
    + rewrite E in H. simpl in H.
      assert (El : last (c :: r) c = d)
        by (rewrite <- H; apply last_last).
      now rewrite El.
Qed.

Lemma split_pieces_no_sep (sep : char) (s piece : str) :
  In piece (split sep s) -> ~ In sep piece.
Proof.
  revert piece. induction s as [|x s IH]; simpl; intros piece Hp.
  - destruct Hp as [<- | []]. auto.
  - destruct (x =? sep) eqn:E.
    + destruct Hp as [<- | Hp]; [auto | now apply IH].
    + apply Z.eqb_neq in E.
      destruct (split sep s) as [|l ls] eqn:Es.
      * destruct Hp as [<- | []]. intros [H | []]. congruence.
      * destruct Hp as [<- | Hp].
        -- intros [H | H]; [congruence|]. apply (IH l); [apply in_eq | exact H].
        -- apply IH. now apply in_cons.
Qed.

(** Every line [text_to_bitmap] lays out is not empty, begins and ends with
    a character that is not white space, holds no line break and only
    characters of the text. *)
Theorem text_lines_are_stripped (text line : str) :
  In line (text_lines text) ->
  exists c r,
    line = c :: r
    /\ isspace c = false
    /\ isspace (last line c) = false
    /\ ~ In LF line
    /\ forall x, In x line -> In x text.
Proof.
  unfold text_lines. intros H.
  apply filter_In in H as [H Ht].
  apply in_map_iff in H as (piece & Hs & Hp).
  destruct line as [|c r]; [discriminate|].
  exists c, r. split; [reflexivity|].
  destruct (strip_shape piece c r Hs) as (Hc & Hl & ws & ws' & Epiece).
  split; [exact Hc|]. split; [exact Hl|].
  assert (Hsub : forall x, In x (c :: r) -> In x piece).
  { intros x Hx. rewrite Epiece. apply in_or_app. right.
    apply in_or_app. now left. }
  split.
  - intros HLF. apply (split_pieces_no_sep LF text piece Hp). now apply Hsub.
  - intros x Hx. apply (split_pieces LF text piece x Hp). now apply Hsub.
Qed.

Lemma text_lines_are_stripped_witness :
  In hello (text_lines ([SPACE; 9] ++ hello ++ [SPACE; LF; LF; SPACE])) /\
  exists c r,
    hello = c :: r
    /\ isspace c = false
    /\ isspace (last hello c) = false
    /\ ~ In LF hello
    /\ forall x, In x hello ->
         In x ([SPACE; 9] ++ hello ++ [SPACE; LF; LF; SPACE]).
Proof.
  assert (H : In hello (text_lines ([SPACE; 9] ++ hello ++ [SPACE; LF; LF; SPACE])))
    by (left; reflexivity).
  split; [exact H|].
  exact (text_lines_are_stripped _ hello H).
Defined.


(** ** [text_to_bitmap]: the image and the search *)

Lemma fold_left_heights (hs : list Z) (acc : Z) :
  fold_left (fun a h => a + (h + 5)) hs acc
  = acc + fold_right Z.add 0 (map (fun h => h + 5) hs).
Proof.
  revert acc. induction hs as [|h hs IH]; intros acc; simpl; [lia|].
  rewrite IH. lia.
Qed.

Lemma sum_lower_bound (hs : list Z) :
  (forall h, In h hs -> 0 <= h) ->
  5 * Z.of_nat (length hs) <= fold_right Z.add 0 (map (fun h => h + 5) hs).
Proof.
  induction hs as [|h hs IH]; intros H; [simpl; lia|].
  simpl length. rewrite Nat2Z.inj_succ. simpl map. simpl fold_right.
  pose proof (H h (in_eq _ _)).
  assert (forall k, In k hs -> 0 <= k) by (intros; apply H; now apply in_cons).
  specialize (IH H1). lia.
Qed.

Lemma draw_lines_size {R : Renderer} (f : font) (lines : list str)
      (heights : list Z) (y : Z) (img : Bitmap) :
  width (draw_lines f lines heights y img) = width img
  /\ height (draw_lines f lines heights y img) = height img.
Proof.
  revert heights y img. induction lines as [|l lines IH]; intros hs y img;
    [now split|].
  destruct hs as [|h hs]; [now split|]. cbn [draw_lines].
  destruct (IH hs (y + (h + 5))
              (draw_text f ((PRINT_WIDTH - bbox_width f l) / 2) y l img))
    as [Hw Hh].
  now rewrite Hw, Hh.
Qed.

Lemma search_font_size_range {R : Renderer} (line : str) :
  8 <= search_font_size line <= 200.
Proof.
  unfold search_font_size.
  destruct (font_search_local line (Z.to_nat (200 - 8 + 1)) 8 200 16)
    as [(Hr & _) | (Hr & _)]; try lia; auto.
Qed.

(** For a text with a character that is not white space, and a renderer
    that measures no negative height, [text_to_bitmap] returns an image
    exactly 384 wide whose height is the two margins of 10 plus, for each
    line, its measured height and 5. *)
Theorem text_to_bitmap_size {R : Renderer} (text : str) :
  heights_nonnegative ->
  (exists c, In c text /\ isspace c = false) ->
  exists sz img,
    chosen_font_size text = ret sz
    /\ text_to_bitmap text = ret img
    /\ width img = PRINT_WIDTH
    /\ height img
       = 20 + fold_right Z.add 0
                (map (fun line => bbox_height (load_font sz) line + 5)
                     (text_lines text))
    /\ 20 + 5 * Z.of_nat (length (text_lines text)) <= height img.
Proof.
  intros Hh (c & Hc & Hsp).
  assert (Hne : text_lines text <> []).
  { intros E. apply text_lines_nil_iff in E. rewrite forallb_forall in E.
    rewrite (E c Hc) in Hsp. discriminate. }
  destruct (max_by_len_nonempty _ Hne) as [longest Hl].
  exists (search_font_size longest).
  set (f := load_font (search_font_size longest)).
  set (hs := map (bbox_height f) (text_lines text)).
  assert (Hsum : fold_right Z.add 0 (map (fun h => h + 5) hs)
                 = fold_right Z.add 0
                     (map (fun line => bbox_height f line + 5) (text_lines text)))
    by (unfold hs; now rewrite map_map).
  assert (Hlow : 5 * Z.of_nat (length (text_lines text))
                 <= fold_right Z.add 0 (map (fun h => h + 5) hs)).
  { replace (length (text_lines text)) with (length hs)
      by (unfold hs; apply length_map).
    apply sum_lower_bound. intros h Hin. unfold hs in Hin.
    apply in_map_iff in Hin as (line & <- & _). apply Hh.
    apply search_font_size_range. }
  eexists. split; [unfold chosen_font_size; rewrite Hl; reflexivity|].
  split.
  - unfold text_to_bitmap. rewrite Hl. cbn [bind ret].
    fold f. fold hs. rewrite fold_left_heights.
    rewrite new_ok by (unfold PRINT_WIDTH; lia).
    cbn [bind ret]. reflexivity.
  - cbn [point width height].
    destruct (draw_lines_size f (text_lines text) hs 10
                  (mkImage PRINT_WIDTH
                     (10 + fold_right Z.add 0 (map (fun h => h + 5) hs) + 10)
                     (fun _ _ => white))) as [Hw Hht].
    rewrite Hw, Hht, <- Hsum. cbn [width height]. repeat split; lia.
Qed.

Lemma block_heights_nonnegative : heights_nonnegative (R := block_renderer).
Proof.
  intros sz line Hsz. rewrite block_load_font. unfold bbox_height. simpl. lia.
Qed.

Lemma text_to_bitmap_size_witness :
  heights_nonnegative (R := block_renderer) /\
  (exists c, In c hello /\ isspace c = false) /\
  exists sz img,
    chosen_font_size (R := block_renderer) hello = ret sz
    /\ text_to_bitmap (R := block_renderer) hello = ret img
    /\ width img = PRINT_WIDTH
    /\ 20 + 5 * Z.of_nat (length (text_lines hello)) <= height img.
Proof.
  assert (Hc : exists c, In c hello /\ isspace c = false)
    by (exists 104; split; [left; reflexivity | reflexivity]).
  split; [exact block_heights_nonnegative|]. split; [exact Hc|].
  destruct (text_to_bitmap_size (R := block_renderer) hello
              block_heights_nonnegative Hc)
    as (sz & img & Hsz & Himg & Hw & _ & Hlow).
  exists sz, img. repeat split; assumption.
Defined.

(** [text_to_bitmap] raises the error of [max] on an empty list exactly for
    the texts that are white space throughout. *)
Theorem text_to_bitmap_raises_iff_blank {R : Renderer} (text : str) :
  text_to_bitmap text = raise (ValueError "max() arg is an empty sequence")
  <-> forallb isspace text = true.
Proof.
  split.
  - intros H. apply text_lines_nil_iff.
    destruct (text_lines text) as [|x xs] eqn:E; [reflexivity|]. exfalso.
    unfold text_to_bitmap in H. rewrite E in H.
    cbn [max_by_len bind ret] in H.
    match type of H with
    | bind (new ?w ?h ?c) _ = _ =>
        unfold new in H; destruct ((0 <=? w) && (0 <=? h))
    end; cbn [bind ret raise] in H; discriminate.
  - intros H. apply text_lines_nil_iff in H.
    unfold text_to_bitmap. rewrite H. reflexivity.
Qed.

Section SearchBound.
Context {R : Renderer}.
Variable longest_line : str.

(** An interval of fewer than [2 ^ n] sizes is searched in [n] rounds. *)
Lemma font_search_rounds (n m : nat) (lo hi best : Z) :
  hi - lo + 1 < 2 ^ Z.of_nat n -> (n <= m)%nat ->
  font_search n longest_line lo hi best = font_search m longest_line lo hi best.
Proof.
  revert m lo hi best.
  induction n as [|n IH]; intros m lo hi best Hn Hm.
  - simpl in Hn. destruct m as [|m]; simpl; [reflexivity|].
    destruct (lo <=? hi) eqn:E; [lia | reflexivity].
  - rewrite Nat2Z.inj_succ, Z.pow_succ_r in Hn by lia.
    destruct m as [|m]; [lia|]. simpl.
    destruct (lo <=? hi) eqn:E; [|reflexivity].
    apply Z.leb_le in E.
    pose proof (Z.div_mod (lo + hi) 2 ltac:(lia)).
    pose proof (Z.mod_pos_bound (lo + hi) 2 ltac:(lia)).
    destruct (fits longest_line ((lo + hi) / 2)); apply IH; lia.
Qed.

(** The loop of [text_to_bitmap] tests at most eight sizes. *)
Theorem search_font_size_eight_rounds :
  search_font_size longest_line = font_search 8 longest_line 8 200 16.
Proof.
  unfold search_font_size. symmetry.
  apply font_search_rounds; [reflexivity | simpl; lia].
Qed.

(** With nothing assumed of the renderer, the size chosen either fits, lies
    in 8..200 and is 200 or is followed by a size that does not fit; or it
    is 16 and size 8 does not fit. *)
Theorem search_font_size_result :
  let sz := search_font_size longest_line in
  (8 <= sz <= 200
   /\ bbox_width (load_font sz) longest_line <= PRINT_WIDTH - 20
   /\ (sz = 200
       \/ PRINT_WIDTH - 20 < bbox_width (load_font (sz + 1)) longest_line))
  \/ (sz = 16
      /\ PRINT_WIDTH - 20 < bbox_width (load_font 8) longest_line).
Proof.
  unfold search_font_size.
  destruct (font_search_local longest_line (Z.to_nat (200 - 8 + 1)) 8 200 16)
    as [(Hr & Hf & Hnext) | (Hr & _ & H8)]; try lia; auto.
  - left. split; [exact Hr|]. unfold fits in *.
    split; [now apply Z.leb_le|].
    destruct Hnext as [E | Hnext]; [now left | right; now apply Z.leb_gt].
  - right. split; [exact Hr|]. unfold fits in H8. now apply Z.leb_gt.
Qed.

(** On a system with no font file the built-in font is measured whatever
    the size asked for: the search ends at 200 when the line fits it and at
    16 when it does not. *)
Theorem search_font_size_builtin_font :
  no_font_files ->
  search_font_size longest_line
  = if bbox_width load_default longest_line <=? PRINT_WIDTH - 20
    then 200 else 16.
Proof.
  intros Hno.
  assert (Hf : forall s, load_font s = load_default)
    by (intros s; unfold load_font; now rewrite !Hno).
  pose proof search_font_size_result as H. cbv zeta in H.
  rewrite !Hf in H.
  destruct (bbox_width load_default longest_line <=? PRINT_WIDTH - 20) eqn:E.
  - apply Z.leb_le in E. destruct H as [(_ & _ & [H | H]) | (_ & H)]; [exact H | lia | lia].
  - apply Z.leb_gt in E. destruct H as [(_ & H & _) | (H & _)]; [lia | exact H].
Qed.

End SearchBound.

Lemma builtin_only_no_font_files : no_font_files (R := builtin_only).
Proof. intros path sz. reflexivity. Qed.

Lemma search_font_size_builtin_font_witness :
  no_font_files (R := builtin_only) /\
  search_font_size (R := builtin_only) hello = 200 /\
  search_font_size (R := builtin_only) fifty_m = 16.
Proof.
  split; [exact builtin_only_no_font_files|].
  split.
  - exact (search_font_size_builtin_font (R := builtin_only) hello
             builtin_only_no_font_files).
  - exact (search_font_size_builtin_font (R := builtin_only) fifty_m
             builtin_only_no_font_files).
Defined.


(** ** The clean-up: what it leaves alone *)

(** A text with no backslash, checkbox glyph, '#' or '*' comes out of the
    clean-up as it went in; and a text the clean-up leaves as it is holds
    no checkbox glyph, '#' or '*'. *)
Theorem clean_up_text_fixes_plain_text (t : str) :
  (~ In BACKSLASH t -> ~ In WHITE_SQUARE t -> ~ In BALLOT_BOX t ->
   ~ In HASH t -> ~ In STAR t -> clean_up_text t = t)
  /\ (clean_up_text t = t ->
      ~ In HASH t /\ ~ In STAR t /\ ~ In WHITE_SQUARE t /\ ~ In BALLOT_BOX t).
Proof.
  split; [apply clean_up_text_plain|].
  intros E. rewrite <- E. apply clean_up_text_removes.
Qed.

Lemma clean_up_text_fixes_plain_text_witness :
  ~ In BACKSLASH hello /\ ~ In WHITE_SQUARE hello /\ ~ In BALLOT_BOX hello
  /\ ~ In HASH hello /\ ~ In STAR hello /\ clean_up_text hello = hello.
Proof.
  assert (H : forall c, In c [BACKSLASH; WHITE_SQUARE; BALLOT_BOX; HASH; STAR] ->
                        ~ In c hello).
  { intros c Hc Hin. simpl in Hc, Hin.
    repeat match goal with
           | H : _ \/ _ |- _ => destruct H
           | H : False |- _ => destruct H
           end; subst; discriminate. }
  assert (H1 : ~ In BACKSLASH hello) by (apply H; simpl; auto).
  assert (H2 : ~ In WHITE_SQUARE hello) by (apply H; simpl; auto).
  assert (H3 : ~ In BALLOT_BOX hello) by (apply H; simpl; auto).
  assert (H4 : ~ In HASH hello) by (apply H; simpl; auto).
  assert (H5 : ~ In STAR hello) by (apply H; simpl; auto 6).
  repeat (split; [assumption|]).
  exact (proj1 (clean_up_text_fixes_plain_text hello) H1 H2 H3 H4 H5).
Defined.

(** A character that is none of backslash, the letter n, the two checkbox
    glyphs, '#' and '*' stays where it is, and the text on either side of it
    is cleaned by itself; a real line break is such a character. *)
Theorem clean_up_text_keeps_ordinary_char (a b : str) (c : char) :
  c <> BACKSLASH -> c <> LOWER_N -> c <> WHITE_SQUARE -> c <> BALLOT_BOX ->
  c <> HASH -> c <> STAR ->
  clean_up_text (a ++ [c] ++ b) = clean_up_text a ++ [c] ++ clean_up_text b.
Proof.
  intros Hb Hn Hw Hbb Hh Hs.
  rewrite clean_up_text_char by assumption.
  rewrite (clean_up_text_plain [c]); [reflexivity| | | | |];
    intros [E | []]; congruence.
Qed.

Lemma clean_up_text_keeps_ordinary_char_witness :
  LF <> BACKSLASH /\
  clean_up_text ([HASH; 97] ++ [LF] ++ [STAR; 98])
  = clean_up_text [HASH; 97] ++ [LF] ++ clean_up_text [STAR; 98].
Proof.
  split; [discriminate|].
  apply (clean_up_text_keeps_ordinary_char [HASH; 97] [STAR; 98] LF);
    discriminate.
Defined.

(** ** [markdown_to_bitmap] for every renderer *)

Lemma find_app {A} (p : A -> bool) (l1 l2 : list A) :
  find p (l1 ++ l2)
  = match find p l1 with
    | Some a => Some a
    | None => find p l2
    end.
Proof.
  induction l1 as [|x l1 IH]; [reflexivity|]. simpl.
  destruct (p x); [reflexivity | exact IH].
Qed.

Lemma zrange_nonpositive (n : Z) : n <= 0 -> zrange n = [].
Proof. intros H. unfold zrange. now replace (Z.to_nat n) with 0%nat by lia. Qed.

(** [find] on a range gives the least index that passes. *)
Lemma find_zrange_first (p : Z -> bool) (n a : Z) :
  find p (zrange n) = Some a ->
  0 <= a < n /\ p a = true /\ forall c, 0 <= c < a -> p c = false.
Proof.
  destruct (Z_le_gt_dec n 0) as [Hn | Hn];
    [rewrite zrange_nonpositive by assumption; discriminate|].
  assert (H0 : 0 <= n) by lia. clear Hn. revert a.
  pattern n. apply natlike_ind; [| |exact H0].
  - discriminate.
  - intros m Hm IH a. unfold Z.succ. rewrite zrange_succ, find_app by assumption.
    destruct (find p (zrange m)) as [a'|] eqn:E.
    + intros Ha. injection Ha as <-.
      destruct (IH a' eq_refl) as (? & ? & ?). repeat split; auto; lia.
    + simpl. destruct (p m) eqn:Em; [|discriminate].
      intros Ha. injection Ha as <-. repeat split; try lia; [assumption|].
      intros c Hc. apply (find_none _ _ E). apply zrange_In. lia.
Qed.

(** [find] on a reversed range gives the greatest index that passes. *)
Lemma find_rev_zrange_last (p : Z -> bool) (n b : Z) :
  find p (rev (zrange n)) = Some b ->
  0 <= b < n /\ p b = true /\ forall c, b < c < n -> p c = false.
Proof.
  destruct (Z_le_gt_dec n 0) as [Hn | Hn];
    [rewrite zrange_nonpositive by assumption; discriminate|].
  assert (H0 : 0 <= n) by lia. clear Hn. revert b.
  pattern n. apply natlike_ind; [| |exact H0].
  - discriminate.
  - intros m Hm IH b. unfold Z.succ.
    rewrite zrange_succ, rev_app_distr by assumption. simpl.
    destruct (p m) eqn:Em.
    + intros Hb. injection Hb as <-. repeat split; try lia; assumption.
    + intros Hb. destruct (IH b Hb) as (? & ? & Hgt).
      repeat split; try lia; [assumption|].
      intros c Hc. destruct (Z.eq_dec c m) as [-> | Hne]; [exact Em|].
      apply Hgt. lia.
Qed.

(** The box [getbbox] returns is not empty and lies inside the image. *)
Lemma getbbox_inside (img : Bitmap) (x0 y0 x1 y1 : Z) :
  getbbox img = Some (x0, y0, x1, y1) ->
  0 <= x0 < x1 /\ x1 <= width img /\ 0 <= y0 < y1 /\ y1 <= height img.
Proof.
  unfold getbbox.
  destruct (find (col_nonzero img) (zrange (width img))) as [l|] eqn:El;
    [|discriminate].
  destruct (find (row_nonzero img) (zrange (height img))) as [u|] eqn:Eu;
    [|discriminate].
  destruct (find (col_nonzero img) (rev (zrange (width img)))) as [r|] eqn:Er;
    [|discriminate].
  destruct (find (row_nonzero img) (rev (zrange (height img)))) as [d|] eqn:Ed;
    [|discriminate].
  intros H. injection H as <- <- <- <-.
  destruct (find_zrange_first _ _ _ El) as (Hl & _ & Hlmin).
  destruct (find_zrange_first _ _ _ Eu) as (Hu & _ & Humin).
  destruct (find_rev_zrange_last _ _ _ Er) as (Hr & Hrp & _).
  destruct (find_rev_zrange_last _ _ _ Ed) as (Hd & Hdp & _).
  assert (l <= r).
  { destruct (Z_le_gt_dec l r); [assumption|].
    rewrite Hlmin in Hrp by lia. discriminate. }
  assert (u <= d).
  { destruct (Z_le_gt_dec u d); [assumption|].
    rewrite Humin in Hdp by lia. discriminate. }
  lia.
Qed.

Lemma point_invert_px (img : Bitmap) (x y : Z) :
  px (point invert img) x y = negb (px img x y).
Proof. unfold point, invert, sample. cbn [px]. now destruct (px img x y). Qed.

(** Whatever the renderer draws, [markdown_to_bitmap] returns an image: it
    is not empty, at most 384 x 2000, and is a window of the drawn canvas
    with every pixel inverted. *)
Theorem markdown_to_bitmap_returns_window {R : Renderer} (markdown_text : str) :
  exists img x0 y0,
    markdown_to_bitmap markdown_text = ret img
    /\ 0 < width img /\ 0 < height img
    /\ 0 <= x0 /\ x0 + width img <= PRINT_WIDTH
    /\ 0 <= y0 /\ y0 + height img <= 2000
    /\ forall x y, 0 <= x < width img -> 0 <= y < height img ->
         px img x y
         = negb (px (drawn_canvas markdown_font (clean_up_text markdown_text))
                    (x + x0) (y + y0)).
Proof.
  unfold markdown_to_bitmap.
  change (new PRINT_WIDTH 2000 white_rgb)
    with (ret (mkImage PRINT_WIDTH 2000 (fun _ _ => white_rgb))).
  cbn [bind ret].
  change (convert_1 (multiline_text markdown_font 10 10
            (clean_up_text markdown_text)
            (mkImage PRINT_WIDTH 2000 (fun _ _ => white_rgb))))
    with (drawn_canvas markdown_font (clean_up_text markdown_text)).
  set (drawn := drawn_canvas markdown_font (clean_up_text markdown_text)).
  destruct (getbbox drawn) as [[[[x0 y0] x1] y1]|] eqn:E.
  - destruct (getbbox_inside _ _ _ _ _ E) as (Hx & Hx1 & Hy & Hy1).
    change (width drawn) with PRINT_WIDTH in Hx1.
    change (height drawn) with 2000 in Hy1.
    eexists; exists x0, y0. split; [reflexivity|].
    cbn [point crop width height].
    repeat (split; [lia|]).
    intros x y Hxx Hyy. rewrite point_invert_px.
    unfold crop, inside. cbn [px].
    change (width drawn) with PRINT_WIDTH. change (height drawn) with 2000.
    destruct (0 <=? x + x0) eqn:E1; [|lia].
    destruct (x + x0 <? PRINT_WIDTH) eqn:E2; [|lia].
    destruct (0 <=? y + y0) eqn:E3; [|lia].
    destruct (y + y0 <? 2000) eqn:E4; [|lia].
    reflexivity.
  - eexists; exists 0, 0. split; [reflexivity|].
    cbn [point width height]. change (width drawn) with PRINT_WIDTH.
    change (height drawn) with 2000. unfold PRINT_WIDTH.
    repeat (split; [lia|]).
    intros x y _ _. rewrite point_invert_px, !Z.add_0_r. reflexivity.
Qed.


Lemma markdown_to_bitmap_wf {R : Renderer} (markdown_text : str) :
  exists img,
    markdown_to_bitmap markdown_text = ret img
    /\ wf img /\ height img <= 2000.
Proof.
  unfold markdown_to_bitmap.
  change (new PRINT_WIDTH 2000 white_rgb)
    with (ret (mkImage PRINT_WIDTH 2000 (fun _ _ => white_rgb))).
  cbn [bind ret].
  match goal with |- context [getbbox ?d] => set (drawn := d) end.
  destruct (getbbox drawn) as [[[[x0 y0] x1] y1]|] eqn:E.
  - destruct (getbbox_inside _ _ _ _ _ E) as (Hx & Hx1 & Hy & Hy1).
    change (height drawn) with 2000 in Hy1.
    eexists. split; [reflexivity|]. unfold wf. cbn [point crop width height]. lia.
  - eexists. split; [reflexivity|]. unfold wf. cbn [point width height].
    subst drawn. cbn [convert_1 multiline_text width height].
    unfold PRINT_WIDTH. lia.
Qed.

(** ** [print_markdown] of the printer *)

(** On a printer whose client is connected [print_markdown] never raises,
    whatever the text and the renderer: it adds one write to the write
    characteristic, after the writes already made, of 13 + 48 h bytes for
    an image h high, at most 96013.  On a client that is not connected -
    the one a refused connection leaves - it raises the error of bleak
    instead and nothing is written. *)
Theorem print_markdown_connected {R : Renderer} (markdown_text : str)
        (c : BleakClient) :
  exists img command,
    markdown_to_bitmap markdown_text = ret img
    /\ print_bitmap_command img = ret command
    /\ Z.of_nat (length command) = 13 + 48 * height img
    /\ Z.of_nat (length command) <= 96013
    /\ (is_connected c = true ->
        print_markdown (mkPrinter (Some c)) markdown_text
        = ret (mkPrinter
                 (Some (mkClient (address c) true
                          (gatt_writes c ++ [(WRITE_CHAR, command)])))))
    /\ (is_connected c = false ->
        print_markdown (mkPrinter (Some c)) markdown_text = raise BleakError).
Proof.
  destruct (markdown_to_bitmap_wf markdown_text) as (img & Himg & Hwf & Hh).
  destruct (print_bitmap_command_ok img Hwf) as (canvas & _ & Hw & Hch & Hc).
  exists img. eexists. split; [exact Himg|]. split; [exact Hc|].
  assert (Hlen : Z.of_nat (length (header (height img) ++ tobytes canvas ++ [10; 10; 10]))
                 = 13 + 48 * height img)
    by (rewrite command_length, tobytes_length_384; destruct Hwf; lia).
  split; [exact Hlen|]. split; [lia|].
  split; intros Hcon; unfold print_markdown, print_bitmap;
    rewrite Himg; cbn [bind ret]; rewrite Hc; cbn [bind ret].
  - rewrite send_bytes_connected by assumption.
    unfold with_write. now rewrite Hcon.
  - now apply send_bytes_unconnected.
Qed.

Lemma print_markdown_connected_witness :
  is_connected (mkClient "PPG" true []) = true /\
  exists command,
    print_markdown (R := block_renderer) connected hello
    = ret (mkPrinter (Some (mkClient "PPG" true [(WRITE_CHAR, command)])))
    /\ Z.of_nat (length command) <= 96013.
Proof.
  split; [reflexivity|].
  destruct (print_markdown_connected (R := block_renderer) hello
              (mkClient "PPG" true []))
    as (img & command & _ & _ & _ & Hle & Hsent & _).
  exists command. split; [exact (Hsent eq_refl) | exact Hle].
Defined.

(** On a printer that has no client [print_markdown] raises the assertion
    of [send_data], for every text and renderer: the image is rendered and
    the command built first, nothing is written. *)
Theorem print_markdown_not_connected {R : Renderer} (markdown_text : str) :
  print_markdown (mkPrinter None) markdown_text
  = raise (AssertionError "Client not connected").
Proof.
  destruct (markdown_to_bitmap_wf markdown_text) as (img & Himg & Hwf & _).
  destruct (print_bitmap_command_ok img Hwf) as (canvas & _ & _ & _ & Hc).
  unfold print_markdown, print_bitmap. rewrite Himg. cbn [bind ret].
  rewrite Hc. reflexivity.
Qed.

(** When the renderer leaves the margin left of and above (10, 10) white,
    every print is the full canvas: the command built has 96013 bytes and
    its height field reads 2000 (D0 07), whatever the text, and it is what
    a connected printer is sent. *)
Theorem print_markdown_sends_full_canvas {R : Renderer} (markdown_text : str)
        (c : BleakClient) :
  margin_stays_white ->
  exists img command,
    markdown_to_bitmap markdown_text = ret img
    /\ print_bitmap_command img = ret command
    /\ Z.of_nat (length command) = 96013
    /\ firstn 10 command = [27; 64; 29; 118; 48; 0; 48; 0; 208; 7]
    /\ (is_connected c = true ->
        print_markdown (mkPrinter (Some c)) markdown_text
        = ret (mkPrinter (Some (with_write c WRITE_CHAR command)))).
Proof.
  intros Hm.
  pose proof (markdown_to_bitmap_uncropped Hm markdown_text) as Himg.
  match type of Himg with _ = ret ?i => set (img := i) in * end.
  assert (Hwf : wf img) by (unfold wf; simpl; unfold PRINT_WIDTH; lia).
  destruct (print_bitmap_command_ok img Hwf) as (canvas & _ & Hw & Hch & Hc).
  exists img. eexists. split; [exact Himg|]. split; [exact Hc|].
  split; [|split].
  - rewrite command_length, tobytes_length_384; try assumption.
    + rewrite Hch. reflexivity.
    + rewrite Hch. simpl. lia.
  - reflexivity.
  - intros Hcon. unfold print_markdown, print_bitmap. rewrite Himg.
    cbn [bind ret]. rewrite Hc. cbn [bind ret].
    now apply send_bytes_connected.
Qed.

Lemma print_markdown_sends_full_canvas_witness :
  margin_stays_white (R := block_renderer) /\
  exists command,
    print_markdown (R := block_renderer) connected hello
    = ret (mkPrinter (Some (mkClient "PPG" true [(WRITE_CHAR, command)])))
    /\ Z.of_nat (length command) = 96013.
Proof.
  split; [exact block_margin|].
  destruct (print_markdown_sends_full_canvas (R := block_renderer) hello
              (mkClient "PPG" true []) block_margin)
    as (img & command & _ & _ & Hl & _ & Hp).
  exists command. split; [exact (Hp eq_refl) | exact Hl].
Defined.

Lemma markdown_to_bitmap_size_witness :
  margin_stays_white (R := block_renderer) /\
  exists img,
    markdown_to_bitmap (R := block_renderer) heading = ret img
    /\ size img = (PRINT_WIDTH, 2000).
Proof.
  split; [exact block_margin|].
  exact (markdown_to_bitmap_size (R := block_renderer) block_margin heading).
Defined.

(** ** [find_and_connect] *)

Lemma prefix_iff (sub s : string) :
  String.prefix sub s = true <-> exists b, s = (sub ++ b)%string.
Proof.
  revert s. induction sub as [|c sub IH]; intros s.
  - split; [intros _; now exists s | intros _; now destruct s].
  - destruct s as [|d s]; simpl.
    + split; [discriminate | intros [b Hb]; discriminate].
    + destruct (Ascii.ascii_dec c d) as [-> | Hne].
      * rewrite IH. split; intros [b Hb]; exists b; congruence.
      * split; [discriminate | intros [b Hb]; congruence].
Qed.

Lemma contains_eq (sub s : string) :
  contains sub s
  = String.prefix sub s
    || match s with
       | EmptyString => false
       | String _ s' => contains sub s'
       end.
Proof. destruct s; reflexivity. Qed.

(** [contains] is the substring test. *)
Lemma contains_iff (sub s : string) :
  contains sub s = true <-> exists a b, s = (a ++ sub ++ b)%string.
Proof.
  split.
  - induction s as [|c s IH]; rewrite contains_eq; intros H.
    + rewrite orb_false_r in H. apply prefix_iff in H as [b Hb].
      now exists EmptyString, b.
    + apply orb_true_iff in H as [H | H].
      * apply prefix_iff in H as [b Hb]. now exists EmptyString, b.
      * destruct (IH H) as (a & b & ->). now exists (String c a), b.
  - intros (a & b & ->). induction a as [|c a IH]; rewrite contains_eq.
    + apply orb_true_iff. left. apply prefix_iff. now exists b.
    + apply orb_true_iff. right. exact IH.
Qed.

(** The devices the scan loop stops at: those with a name that holds
    "PPG". *)
Lemma is_ppg_iff (device : BLEDevice.t) :
  is_ppg device = true
  <-> exists n a b, BLEDevice.name device = Some n
                    /\ n = (a ++ "PPG" ++ b)%string.
Proof.
  unfold is_ppg. destruct (BLEDevice.name device) as [n|].
  - split.
    + intros H. apply andb_true_iff in H as [_ H].
      apply contains_iff in H as (a & b & ->). now exists (a ++ "PPG" ++ b)%string, a, b.
    + intros (n' & a & b & E & ->). injection E as ->.
      apply andb_true_iff. split.
      * destruct a; reflexivity.
      * apply contains_iff. now exists a, b.
  - split; [discriminate | intros (n & a & b & E & _); discriminate].
Qed.

(** With no device whose name holds "PPG", [find_and_connect] returns
    False, tries no connection and leaves the printer as it was. *)
Theorem find_and_connect_no_printer (self : TinyPrinter)
        (devices : list BLEDevice.t) (connects : string -> bool) :
  (forall d n, In d devices -> BLEDevice.name d = Some n ->
               ~ exists a b, n = (a ++ "PPG" ++ b)%string) ->
  find_and_connect self devices connects = (false, self).
Proof.
  intros H. unfold find_and_connect.
  destruct (find is_ppg devices) as [d|] eqn:E; [|reflexivity].
  exfalso. apply find_some in E as [Hin Hd].
  apply is_ppg_iff in Hd as (n & a & b & Hn & ->).
  apply (H d _ Hin Hn). now exists a, b.
Qed.

Lemma find_and_connect_no_printer_witness :
  (forall d n, In d [a_phone; unnamed_device] -> BLEDevice.name d = Some n ->
               ~ exists a b, n = (a ++ "PPG" ++ b)%string) /\
  find_and_connect connected [a_phone; unnamed_device] (fun _ => true)
  = (false, connected).
Proof.
  assert (H : forall d n, In d [a_phone; unnamed_device] ->
                BLEDevice.name d = Some n ->
                ~ exists a b, n = (a ++ "PPG" ++ b)%string).
  { intros d n Hd Hn Hex.
    assert (Hp : is_ppg d = true)
      by (apply is_ppg_iff; destruct Hex as (a & b & ->); now exists (a ++ "PPG" ++ b)%string, a, b).
    destruct Hd as [<- | [<- | []]]; discriminate. }
  split; [exact H|].
  exact (find_and_connect_no_printer connected [a_phone; unnamed_device]
           (fun _ => true) H).
Defined.

Lemma find_and_connect_at (self : TinyPrinter)
      (before after : list BLEDevice.t) (d : BLEDevice.t)
      (connects : string -> bool) :
  (forall d', In d' before -> is_ppg d' = false) ->
  is_ppg d = true ->
  find_and_connect self (before ++ d :: after) connects
  = (connects (BLEDevice.address d),
     mkPrinter (Some (mkClient (BLEDevice.address d)
                        (connects (BLEDevice.address d)) []))).
Proof.
  intros Hb Hd.
  assert (Hf : find is_ppg (before ++ d :: after) = Some d).
  { rewrite find_app.
    destruct (find is_ppg before) as [x|] eqn:E.
    - apply find_some in E as [Hin Hx]. rewrite (Hb x Hin) in Hx. discriminate.
    - simpl. now rewrite Hd. }
  unfold find_and_connect. rewrite Hf.
  now destruct (connects (BLEDevice.address d)).
Qed.

(** [find_and_connect] goes for the first device whose name holds "PPG":
    it returns whether the connection to that device completes, and in both
    cases leaves the printer with a fresh client for that device's
    address, connected exactly when the connection completed. *)
Theorem find_and_connect_first_match (self : TinyPrinter)
        (before after : list BLEDevice.t) (d : BLEDevice.t)
        (n a b : string) (connects : string -> bool) :
  (forall d', In d' before -> is_ppg d' = false) ->
  BLEDevice.name d = Some n -> n = (a ++ "PPG" ++ b)%string ->
  find_and_connect self (before ++ d :: after) connects
  = (connects (BLEDevice.address d),
     mkPrinter (Some (mkClient (BLEDevice.address d)
                        (connects (BLEDevice.address d)) []))).
Proof.
  intros Hb Hn Hs.
  assert (Hd : is_ppg d = true) by (apply is_ppg_iff; now exists n, a, b).
  now apply find_and_connect_at.
Qed.

Lemma find_and_connect_first_match_witness :
  (forall d', In d' [a_phone; unnamed_device] -> is_ppg d' = false) /\
  find_and_connect (mkPrinter None)
    ([a_phone; unnamed_device] ++ a_printer :: [other_printer]) (fun _ => false)
  = (false, mkPrinter (Some (mkClient "AA:03" false []))).
Proof.
  assert (H : forall d', In d' [a_phone; unnamed_device] -> is_ppg d' = false)
    by (intros d' [<- | [<- | []]]; reflexivity).
  split; [exact H|].
  exact (find_and_connect_first_match (mkPrinter None) [a_phone; unnamed_device]
           [other_printer] a_printer "PPG_A2" "" "_A2" (fun _ => false)
           H eq_refl eq_refl).
Defined.


(** ** [server.py]: the tool and the module-wide printer *)

Lemma print_markdown_some {R : Renderer} (markdown_text : str) (c : BleakClient) :
  is_connected c = true ->
  exists command,
    print_markdown (mkPrinter (Some c)) markdown_text
    = inr (mkPrinter (Some (with_write c WRITE_CHAR command))).
Proof.
  intros Hcon.
  destruct (markdown_to_bitmap_wf markdown_text) as (img & Himg & Hwf & _).
  destruct (print_bitmap_command_ok img Hwf) as (canvas & _ & _ & _ & Hc).
  eexists. unfold print_markdown, print_bitmap. rewrite Himg. cbn [bind ret].
  rewrite Hc. cbn [bind ret]. now apply send_bytes_connected.
Qed.

Lemma print_markdown_unconnected {R : Renderer} (markdown_text : str)
      (c : BleakClient) :
  is_connected c = false ->
  print_markdown (mkPrinter (Some c)) markdown_text = inl BleakError.
Proof.
  intros Hcon.
  destruct (markdown_to_bitmap_wf markdown_text) as (img & Himg & Hwf & _).
  destruct (print_bitmap_command_ok img Hwf) as (canvas & _ & _ & _ & Hc).
  unfold print_markdown, print_bitmap. rewrite Himg. cbn [bind ret].
  rewrite Hc. cbn [bind ret]. now apply send_bytes_unconnected.
Qed.

Lemma print_markdown_none {R : Renderer} (markdown_text : str) :
  print_markdown (mkPrinter None) markdown_text
  = inl (AssertionError "Client not connected").
Proof.
  destruct (markdown_to_bitmap_wf markdown_text) as (img & Himg & Hwf & _).
  destruct (print_bitmap_command_ok img Hwf) as (canvas & _ & _ & _ & Hc).
  unfold print_markdown, print_bitmap. rewrite Himg. cbn [bind ret].
  rewrite Hc. reflexivity.
Qed.

(** Once the module holds a printer with a client the tool never scans,
    whatever devices are around.  With a connected client it answers with
    the success message, makes its three progress reports in order, adds
    one write to the client and reports no error.  With a client that is
    not connected - the one a refused connection leaves - it fails on the
    write with the error of bleak after two progress reports, and the
    module keeps that client. *)
Theorem tool_reuses_connection {R : Renderer} (markdown_text : str)
        (devices : list BLEDevice.t) (connects : string -> bool)
        (s : Server) (c : BleakClient) :
  printer_instance s = Some (mkPrinter (Some c)) ->
  (is_connected c = true ->
   exists command,
     print_markdown_tool markdown_text devices connects s
     = (Printed,
        mkServer (Some (mkPrinter
                    (Some (mkClient (address c) true
                             (gatt_writes c ++ [(WRITE_CHAR, command)])))))
                 (progress s
                  ++ [(0, 2, "Initializing printer..."%string)]
                  ++ [(0, 1, "Printer initialized. Sending data..."%string)]
                  ++ [(0, 2, "Printer initialized"%string)])
                 (ctx_errors s)))
  /\ (is_connected c = false ->
      print_markdown_tool markdown_text devices connects s
      = (Failed (Raised BleakError),
         mkServer (Some (mkPrinter (Some c)))
                  (progress s
                   ++ [(0, 2, "Initializing printer..."%string)]
                   ++ [(0, 1, "Printer initialized. Sending data..."%string)])
                  (ctx_errors s ++ [Raised BleakError]))).
Proof.
  intros Hp. split; intros Hcon.
  - destruct (print_markdown_some markdown_text c Hcon) as [command Hc].
    exists command.
    unfold print_markdown_tool, managed_printer, report_progress, set_printer.
    cbn [printer_instance progress ctx_errors]. rewrite Hp, Hc.
    cbn [printer_instance progress ctx_errors].
    unfold with_write. rewrite Hcon. now rewrite <- !app_assoc.
  - pose proof (print_markdown_unconnected markdown_text c Hcon) as Hc.
    unfold print_markdown_tool, managed_printer, report_progress, failed.
    cbn [printer_instance progress ctx_errors]. rewrite Hp, Hc.
    cbn [printer_instance progress ctx_errors].
    now rewrite <- !app_assoc.
Qed.

Lemma tool_reuses_connection_witness :
  printer_instance (mkServer (Some connected) [] [])
  = Some (mkPrinter (Some (mkClient "PPG" true []))) /\
  is_connected (mkClient "PPG" true []) = true /\
  exists command,
    fst (print_markdown_tool (R := block_renderer) hello [] (fun _ => false)
           (mkServer (Some connected) [] []))
    = Printed
    /\ printer_instance
         (snd (print_markdown_tool (R := block_renderer) hello [] (fun _ => false)
                 (mkServer (Some connected) [] [])))
       = Some (mkPrinter (Some (mkClient "PPG" true [(WRITE_CHAR, command)]))).
Proof.
  split; [reflexivity|]. split; [reflexivity|].
  destruct (proj1 (tool_reuses_connection (R := block_renderer) hello []
                     (fun _ => false) (mkServer (Some connected) [] [])
                     (mkClient "PPG" true []) eq_refl) eq_refl)
    as [command Hc].
  exists command. rewrite Hc. split; reflexivity.
Defined.

(** On a server with no printer yet and a scan that finds a device named
    with "PPG" to which the connection completes, the tool connects to the
    first such device and prints: the module then holds a printer whose
    client has that device's address and the one command written. *)
Theorem tool_first_print {R : Renderer} (markdown_text : str)
        (before after : list BLEDevice.t) (d : BLEDevice.t)
        (connects : string -> bool) (s : Server) :
  printer_instance s = None ->
  (forall d', In d' before -> is_ppg d' = false) ->
  is_ppg d = true ->
  connects (BLEDevice.address d) = true ->
  exists command,
    print_markdown_tool markdown_text (before ++ d :: after) connects s
    = (Printed,
       mkServer (Some (mkPrinter
                   (Some (mkClient (BLEDevice.address d) true
                            [(WRITE_CHAR, command)]))))
                (progress s
                 ++ [(0, 2, "Initializing printer..."%string)]
                 ++ [(0, 1, "Printer initialized. Sending data..."%string)]
                 ++ [(0, 2, "Printer initialized"%string)])
                (ctx_errors s)).
Proof.
  intros Hp Hb Hd Hc.
  apply is_ppg_iff in Hd as (n & a & b & Hn & Hs).
  pose proof (find_and_connect_at (mkPrinter None) before after d connects Hb
                ltac:(apply is_ppg_iff; now exists n, a, b)) as Hf.
  rewrite Hc in Hf.
  destruct (print_markdown_some markdown_text
              (mkClient (BLEDevice.address d) true []) eq_refl)
    as [command Hpm].
  exists command.
  unfold print_markdown_tool, managed_printer, init_printer, report_progress,
    set_printer.
  cbn [printer_instance progress ctx_errors]. rewrite Hp, Hf.
  cbn [negb printer_instance progress ctx_errors]. rewrite Hpm.
  cbn [printer_instance progress ctx_errors].
  now rewrite <- !app_assoc.
Qed.

(** When the scan finds no device named with "PPG", the tool answers with
    the failure to connect and the module keeps the printer it made, which
    has no client.  From then on the tool never scans again: whatever
    devices appear, every call fails on the assertion of [send_data] and
    leaves the module in that state. *)
Theorem tool_never_rescans {R : Renderer} (markdown_text : str)
        (devices : list BLEDevice.t) (connects : string -> bool) (s : Server) :
  printer_instance s = None ->
  (forall d, In d devices -> is_ppg d = false) ->
  (exists s1,
     print_markdown_tool markdown_text devices connects s
     = (Failed (RuntimeError "Failed to connect to PPG printer"), s1)
     /\ printer_instance s1 = Some (mkPrinter None)
     /\ ctx_errors s1
        = ctx_errors s ++ [RuntimeError "Failed to connect to PPG printer"])
  /\ forall s1 text' devices' connects',
       printer_instance s1 = Some (mkPrinter None) ->
       exists s2,
         print_markdown_tool text' devices' connects' s1
         = (Failed (Raised (AssertionError "Client not connected")), s2)
         /\ printer_instance s2 = Some (mkPrinter None).
Proof.
  intros Hp Hd. split.
  - assert (Hf : find is_ppg devices = None).
    { destruct (find is_ppg devices) as [x|] eqn:E; [|reflexivity].
      apply find_some in E as [Hin Hx]. rewrite (Hd x Hin) in Hx. discriminate. }
    eexists.
    unfold print_markdown_tool, managed_printer, init_printer, report_progress,
      set_printer, find_and_connect, failed.
    cbn [printer_instance progress ctx_errors]. rewrite Hp, Hf.
    cbn [negb printer_instance progress ctx_errors].
    split; [reflexivity|]. split; reflexivity.
  - intros s1 text' devices' connects' Hs1.
    eexists.
    unfold print_markdown_tool, managed_printer, report_progress, failed.
    cbn [printer_instance progress ctx_errors]. rewrite Hs1.
    rewrite print_markdown_none.
    cbn [printer_instance progress ctx_errors].
    split; reflexivity.
Qed.

Lemma tool_never_rescans_witness :
  printer_instance fresh_server = None /\
  (forall d, In d [a_phone; unnamed_device] -> is_ppg d = false) /\
  exists s1,
    print_markdown_tool (R := block_renderer) hello [a_phone; unnamed_device]
      (fun _ => true) fresh_server
    = (Failed (RuntimeError "Failed to connect to PPG printer"), s1)
    /\ printer_instance s1 = Some (mkPrinter None).
Proof.
  assert (H : forall d, In d [a_phone; unnamed_device] -> is_ppg d = false)
    by (intros d [<- | [<- | []]]; reflexivity).
  split; [reflexivity|]. split; [exact H|].
  destruct (proj1 (tool_never_rescans (R := block_renderer) hello
                     [a_phone; unnamed_device] (fun _ => true) fresh_server
                     eq_refl H)) as (s1 & Hr & Hi & _).
  exists s1. split; [exact Hr | exact Hi].
Defined.

(** When the first device named with "PPG" refuses the connection, the tool
    answers with the failure to connect, yet the module keeps a printer
    whose client is assigned to that device and not connected. *)
Theorem tool_failed_connect_keeps_client {R : Renderer} (markdown_text : str)
        (before after : list BLEDevice.t) (d : BLEDevice.t)
        (connects : string -> bool) (s : Server) :
  printer_instance s = None ->
  (forall d', In d' before -> is_ppg d' = false) ->
  is_ppg d = true ->
  connects (BLEDevice.address d) = false ->
  print_markdown_tool markdown_text (before ++ d :: after) connects s
  = (Failed (RuntimeError "Failed to connect to PPG printer"),
     mkServer (Some (mkPrinter (Some (mkClient (BLEDevice.address d) false []))))
              (progress s ++ [(0, 2, "Initializing printer..."%string)])
              (ctx_errors s ++ [RuntimeError "Failed to connect to PPG printer"])).
Proof.
  intros Hp Hb Hd Hc.
  pose proof (find_and_connect_at (mkPrinter None) before after d connects Hb Hd)
    as Hf.
  rewrite Hc in Hf.
  unfold print_markdown_tool, managed_printer, init_printer, report_progress,
    set_printer, failed.
  cbn [printer_instance progress ctx_errors]. rewrite Hp, Hf.
  cbn [negb printer_instance progress ctx_errors]. reflexivity.
Qed.

Lemma tool_first_print_witness :
  printer_instance fresh_server = None /\
  (forall d', In d' [a_phone; unnamed_device] -> is_ppg d' = false) /\
  is_ppg a_printer = true /\
  exists command,
    print_markdown_tool (R := block_renderer) hello
      ([a_phone; unnamed_device] ++ a_printer :: [other_printer])
      (fun _ => true) fresh_server
    = (Printed,
       mkServer (Some (mkPrinter (Some (mkClient "AA:03" true [(WRITE_CHAR, command)]))))
                ([] ++ [(0, 2, "Initializing printer..."%string)]
                 ++ [(0, 1, "Printer initialized. Sending data..."%string)]
                 ++ [(0, 2, "Printer initialized"%string)])
                []).
Proof.
  assert (H : forall d', In d' [a_phone; unnamed_device] -> is_ppg d' = false)
    by (intros d' [<- | [<- | []]]; reflexivity).
  split; [reflexivity|]. split; [exact H|]. split; [reflexivity|].
  exact (tool_first_print (R := block_renderer) hello [a_phone; unnamed_device]
           [other_printer] a_printer (fun _ => true) fresh_server
           eq_refl H eq_refl eq_refl).
Defined.

Lemma tool_failed_connect_keeps_client_witness :
  printer_instance fresh_server = None /\
  (forall d', In d' [a_phone] -> is_ppg d' = false) /\
  print_markdown_tool (R := block_renderer) hello
    ([a_phone] ++ other_printer :: []) (fun _ => false) fresh_server
  = (Failed (RuntimeError "Failed to connect to PPG printer"),
     mkServer (Some (mkPrinter (Some (mkClient "AA:04" false []))))
              ([] ++ [(0, 2, "Initializing printer..."%string)])
              ([] ++ [RuntimeError "Failed to connect to PPG printer"])).
Proof.
  assert (H : forall d', In d' [a_phone] -> is_ppg d' = false)
    by (intros d' [<- | []]; reflexivity).
  split; [reflexivity|]. split; [exact H|].
  exact (tool_failed_connect_keeps_client (R := block_renderer) hello [a_phone] []
           other_printer (fun _ => false) fresh_server eq_refl H eq_refl eq_refl).
Defined.
